(** * Lollo Bet server: caching layer and Poisson prediction engine

    A shallow embedding of [server.js].  The JavaScript is modelled the way it
    is written:

    - a [Map] used as a cache is a [gmap] from string keys to entries
      [{ ts, data }];
    - [Date.now()] is an explicit time argument (milliseconds, in [Z]) at every
      place the source reads the clock;
    - a value that may be [undefined] or [null] has type [maybe T];
      truthiness ([!x], [x && y], [x || d], [if (x)]) is the class [Truthy];
    - an [axios.get] either resolves or rejects: type [reply];
    - a request handler returns its HTTP response together with the caches it
      leaves behind; handlers are taken one request at a time;
    - JavaScript numbers are exact rationals ([Q]); [NaN] is [None] in
      [option Q].  Rounding of doubles and the infinities are not modelled. *)

From Stdlib Require Import ZArith QArith Qround Qabs Qpower Qminmax Lqa Lia List.
From Stdlib Require Import Sorting.Sorted Sorting.Permutation Ascii String.
From Stdlib Require Factorial.
From stdpp Require Import base option list strings gmap pretty.

Open Scope Z_scope.

(* ===================================================================== *)
(** ** JavaScript values and truthiness *)
(* ===================================================================== *)

Inductive maybe (T : Type) : Type :=
  | Undefined : maybe T
  | Null : maybe T
  | Val : T -> maybe T.
Arguments Undefined {T}.
Arguments Null {T}.
Arguments Val {T} _.

Class Truthy (T : Type) := truthy : T -> bool.

(** Objects and arrays are always truthy, also the empty array. *)
#[export] Instance truthy_list {T} : Truthy (list T) := fun _ => true.
#[export] Instance truthy_bool : Truthy bool := fun b => b.
(** A number is falsy when it is zero ([NaN] is [None], see below). *)
#[export] Instance truthy_Z : Truthy Z := fun z => negb (z =? 0).
#[export] Instance truthy_Q : Truthy Q := fun q => negb (Qeq_bool q 0).
#[export] Instance truthy_string : Truthy string :=
  fun s => match s with EmptyString => false | _ => true end.
#[export] Instance truthy_maybe {T} `{Truthy T} : Truthy (maybe T) :=
  fun m => match m with Val v => truthy v | _ => false end.
(** [option] is used for a field read through [?.]: [None] is [undefined],
    and for a number [None] is [NaN]; both are falsy. *)
#[export] Instance truthy_option {T} `{Truthy T} : Truthy (option T) :=
  fun m => match m with Some v => truthy v | None => false end.

(** [x !== undefined] *)
Definition is_undefined {T} (m : maybe T) : bool :=
  match m with Undefined => true | _ => false end.

(** [x || d] *)
Definition or_default {T} `{Truthy T} (x : maybe T) (d : T) : T :=
  match x with
  | Val v => if truthy v then v else d
  | _ => d
  end.

(** The outcome of [await axios.get(...)]: the promise rejects (the [catch]
    sees [e?.response?.status]) or resolves with a body whose [response] field
    may be missing. *)
Inductive reply (T : Type) : Type :=
  | Rejected : option Z -> reply T
  | Resolved : maybe T -> reply T.
Arguments Rejected {T} _.
Arguments Resolved {T} _.

(** What a handler sends: [res.json(body)], or
    [res.status(code).json({ error, detail })]. *)
Inductive response (B : Type) : Type :=
  | Json : B -> response B
  | Status : Z -> string -> response B.
Arguments Json {B} _.
Arguments Status {B} _ _.

(* ===================================================================== *)
(** ** Freshness cache: [getCache] / [setCache] *)
(* ===================================================================== *)

Module Cache.

Record entry (T : Type) : Type := Entry { ts : Z; data : maybe T }.
Arguments Entry {T} _ _.
Arguments ts {T} _.
Arguments data {T} _.

(** [const getCache = (m, k, ttl) => { const h = m.get(k); if (!h) return null;
      if (Date.now() - h.ts > ttl) { m.delete(k); return null; }
      return h.data; }]
    The result is the returned value and the map as the call leaves it. *)
Definition getCache {T} (m : gmap string (entry T)) (k : string) (ttl now : Z)
  : maybe T * gmap string (entry T) :=
  match m !! k with
  | None => (Null, m)
  | Some h =>
      if now - ts h >? ttl then (Null, delete k m)
      else (data h, m)
  end.

(** [const setCache = (m, k, d) => m.set(k, { ts: Date.now(), data: d });] *)
Definition setCache {T} (m : gmap string (entry T)) (k : string) (d : maybe T)
  (now : Z) : gmap string (entry T) :=
  <[k := Entry now d]> m.

(** The five caches of [const cache = { day, leagues, injuries, lineups, stats }]
    and the TTL each call site passes to [getCache]. *)
Inductive kind : Type := Day | Leagues | Injuries | Lineups | Stats.

Definition ttl_of (c : kind) : Z :=
  match c with
  | Day => 10 * 60 * 1000
  | Leagues => 15 * 60 * 1000
  | Injuries => 30 * 60 * 1000
  | Lineups => 30 * 60 * 1000
  | Stats => 24 * 60 * 60 * 1000
  end.

End Cache.

(* ===================================================================== *)
(** ** The JavaScript runtime the server relies on *)
(* ===================================================================== *)

(** Library functions whose results the source uses but does not define.
    They are an interface: every theorem below holds for any implementation
    satisfying the hypotheses the theorem names. *)
Class Runtime : Type := {
  (** [new Date(s).getTime()]; [None] is the [NaN] of an Invalid Date. *)
  Date_parse : string -> option Z;
  (** [new Date(ms).toISOString()]; [None] is the [RangeError] thrown for an
      invalid time value. *)
  Date_toISOString : Z -> option string;
  (** [Number(s)] of a string; [None] is [NaN]. *)
  Number_of_string : string -> option Q;
  (** [String(n)] of a number, as in ["_L" + leagueId]. *)
  String_of_number : Q -> string;
  (** [a.localeCompare(b)]: negative, zero or positive. *)
  localeCompare : string -> string -> Z;
  (** [Math.exp] *)
  Math_exp : Q -> Q
}.

(* ===================================================================== *)
(** ** Upstream records (the fields the server reads) *)
(* ===================================================================== *)

(** A field is an [option]: [None] when the property is missing or [null],
    which is what the [?.] chains of the source collapse to [undefined]. *)
Record Info : Type := { info_id : option Z; info_date : option string }.
Record League : Type := {
  league_id : option Z;
  league_name : option string;
  league_country : option string;
  league_season : option Z
}.
Record Team : Type := { team_id : option Z; team_name : option string }.
Record Teams : Type := { home : option Team; away : option Team }.
Record Fixture : Type := {
  fixture : option Info;
  league : option League;
  teams : option Teams
}.

Record Injury : Type := { injury_team : option Team; injury_player : option string }.
Record Lineup : Type := { lineup_team : option Team }.

(** A primitive as it comes out of JSON: the provider sends the goal averages
    as strings (["1.5"]), numbers or [null]. *)
Inductive prim : Type :=
  | PUndefined
  | PNull
  | PNum (q : Q)
  | PStr (s : string).

(** [H.goals.for.average.home] and its three siblings; a chain broken
    anywhere reads [PUndefined]. *)
Record TeamStats : Type := {
  goals_for_average_home : prim;
  goals_against_average_home : prim;
  goals_for_average_away : prim;
  goals_against_average_away : prim
}.

#[export] Instance truthy_TeamStats : Truthy TeamStats := fun _ => true.

(* ===================================================================== *)
(** ** Upstream data client *)
(* ===================================================================== *)

(** [params] of [GET /fixtures]. *)
Inductive fixtures_query : Type :=
  | ByDate (date : string)
  | ByRange (from to : string)
  | ById (id : string).

(** One [axios.get]. *)
Inductive call : Type :=
  | GetFixtures (q : fixtures_query)
  | GetStatistics (team league season : option Z)
  | GetInjuries (fixture_param : string)
  | GetLineups (fixture_param : string).

(** What the provider answers during one request. *)
Record Upstream : Type := {
  fixtures_reply : fixtures_query -> reply (list Fixture);
  statistics_reply : option Z -> option Z -> option Z -> reply TeamStats;
  injuries_reply : string -> reply (list Injury);
  lineups_reply : string -> reply (list Lineup)
}.

(* ===================================================================== *)
(** ** What the handlers build and cache *)
(* ===================================================================== *)

Record LeagueSummary : Type := {
  ls_id : Z;
  ls_name : option string;
  ls_country : option string;
  ls_season : option Z
}.

Record LeaguesPayload : Type := {
  lp_date : string;
  lp_count : nat;
  lp_leagues : list LeagueSummary
}.

Record Match : Type := {
  match_id : string;
  match_home : option string;
  match_away : option string;
  match_homeId : option Z;
  match_awayId : option Z;
  match_league : option string;
  match_leagueId : option Z;
  match_season : option Z;
  match_country : option string;
  match_time : option string;
  match_dateISO : option string
}.

Record DayEntry : Type := {
  de_match : Match;
  de_lineupsConfirmed : bool;
  de_availability : list string
}.

Record DayPayload : Type := {
  dp_date : string;
  dp_matches : list DayEntry;
  dp_leagueFilter : option Q   (* [meta.leagueFilter]; [None] is [null] *)
}.

#[export] Instance truthy_LeaguesPayload : Truthy LeaguesPayload := fun _ => true.
#[export] Instance truthy_DayPayload : Truthy DayPayload := fun _ => true.

Import Cache.

(** [const cache = { day: new Map(), leagues: new Map(), injuries: new Map(),
                     lineups: new Map(), stats: new Map() };] *)
Record Caches : Type := {
  cache_day : gmap string (entry DayPayload);
  cache_leagues : gmap string (entry LeaguesPayload);
  cache_injuries : gmap string (entry (list Injury));
  cache_lineups : gmap string (entry bool);
  cache_stats : gmap string (entry TeamStats)
}.

Definition empty_caches : Caches :=
  {| cache_day := ∅; cache_leagues := ∅; cache_injuries := ∅;
     cache_lineups := ∅; cache_stats := ∅ |}.

(** [cache.day], [cache.leagues], ...: one member of the record, to read and
    to replace. *)
Record member (T : Type) : Type := {
  view : Caches -> gmap string (entry T);
  update : Caches -> gmap string (entry T) -> Caches
}.
Arguments view {T} _ _.
Arguments update {T} _ _ _.

Definition day_cache : member DayPayload :=
  {| view := cache_day;
     update c m :=
       {| cache_day := m; cache_leagues := cache_leagues c;
          cache_injuries := cache_injuries c; cache_lineups := cache_lineups c;
          cache_stats := cache_stats c |} |}.
Definition leagues_cache : member LeaguesPayload :=
  {| view := cache_leagues;
     update c m :=
       {| cache_day := cache_day c; cache_leagues := m;
          cache_injuries := cache_injuries c; cache_lineups := cache_lineups c;
          cache_stats := cache_stats c |} |}.
Definition injuries_cache : member (list Injury) :=
  {| view := cache_injuries;
     update c m :=
       {| cache_day := cache_day c; cache_leagues := cache_leagues c;
          cache_injuries := m; cache_lineups := cache_lineups c;
          cache_stats := cache_stats c |} |}.
Definition lineups_cache : member bool :=
  {| view := cache_lineups;
     update c m :=
       {| cache_day := cache_day c; cache_leagues := cache_leagues c;
          cache_injuries := cache_injuries c; cache_lineups := m;
          cache_stats := cache_stats c |} |}.
Definition stats_cache : member TeamStats :=
  {| view := cache_stats;
     update c m :=
       {| cache_day := cache_day c; cache_leagues := cache_leagues c;
          cache_injuries := cache_injuries c; cache_lineups := cache_lineups c;
          cache_stats := m |} |}.

(* ===================================================================== *)
(** ** Exceptions, the shared caches and the log of upstream calls *)
(* ===================================================================== *)

(** The state a request runs in: the process-wide caches and the upstream
    calls issued so far. *)
Record World : Type := { caches : Caches; calls : list call }.

Inductive result (A : Type) : Type :=
  | Ret : A -> result A
  | Throw : result A.
Arguments Ret {A} _.
Arguments Throw {A}.

(** A computation returns or throws, and may change the world on the way. *)
Definition M (A : Type) : Type := World -> result A * World.

Definition ret {A} (a : A) : M A := fun w => (Ret a, w).
Definition throw {A} : M A := fun w => (Throw, w).

Definition bind {A B} (c : M A) (k : A -> M B) : M B :=
  fun w =>
    match c w with
    | (Ret a, w') => k a w'
    | (Throw, w') => (Throw, w')
    end.

Notation "'let!' x ':=' c 'in' k" := (bind c (fun x => k))
  (at level 10, x name, c at level 100, k at level 200).

(** [try { body } catch (e) { handler }]: what [body] did before it threw
    stays done. *)
Definition try_catch {A} (body : M A) (handler : M A) : M A :=
  fun w =>
    match body w with
    | (Ret a, w') => (Ret a, w')
    | (Throw, w') => handler w'
    end.

(** [await axios.get(...)]: logs the call; throws when the promise rejects. *)
Definition await_get {T} (c : call) (r : reply T) : M (maybe T) :=
  fun w =>
    let w' := {| caches := caches w; calls := calls w ++ [c] |} in
    match r with
    | Resolved body => (Ret body, w')
    | Rejected _ => (Throw, w')
    end.

(** Lifting a partial runtime function: [None] is a thrown exception. *)
Definition or_throw {A} (o : option A) : M A :=
  match o with Some a => ret a | None => throw end.

(** [getCache(cache.x, k, ttl)] and [setCache(cache.x, k, d)] on the shared
    caches, with the reading of [Date.now()] they use. *)
Definition getCacheM {T} (x : member T) (k : string) (ttl now : Z) : M (maybe T) :=
  fun w =>
    let '(v, m) := getCache (view x (caches w)) k ttl now in
    (Ret v, {| caches := update x (caches w) m; calls := calls w |}).

Definition setCacheM {T} (x : member T) (k : string) (d : maybe T) (now : Z)
  : M unit :=
  fun w =>
    (Ret tt, {| caches := update x (caches w) (setCache (view x (caches w)) k d now);
                calls := calls w |}).

(** The outer [try { ... } catch (e) { res.status(500).json({ error, detail }) }]
    of a handler. *)
Definition respond {B} (body : M (response B)) (error : string) (w : World)
  : response B * World :=
  match body w with
  | (Ret r, w') => (r, w')
  | (Throw, w') => (Status 500 error, w')
  end.

(** [o?.f]: [undefined] as soon as a link of the chain is missing. *)
Definition chain {A B} (o : option A) (f : A -> option B) : option B :=
  match o with Some a => f a | None => None end.

Notation "o ?. f" := (chain o f) (at level 50, left associativity).

(** [x || d] for a field read through [?.] *)
Definition option_or {T} `{Truthy T} (x : option T) (d : T) : T :=
  match x with
  | Some v => if truthy v then v else d
  | None => d
  end.

(** [String(x)] of an integer id that may be missing. *)
Definition String_of_id (o : option Z) : string :=
  match o with Some z => pretty z | None => "undefined" end.

(* ===================================================================== *)
(** ** Fixture aggregator *)
(* ===================================================================== *)

(** The local [const m = new Map()] of the leagues handler keeps insertion
    order, which [Array.from(m.values())] exposes: an association list. *)
Definition omap_has {V} (m : list (string * V)) (k : string) : bool :=
  existsb (fun kv => String.eqb (fst kv) k) m.

Definition omap_set {V} (m : list (string * V)) (k : string) (v : V)
  : list (string * V) :=
  if omap_has m k
  then map (fun kv => if String.eqb (fst kv) k then (k, v) else kv) m
  else m ++ [(k, v)].

Definition omap_values {V} (m : list (string * V)) : list V := map snd m.

(** [const k = lid + "_" + season;] *)
Definition league_key (lid : Z) (season : option Z) : string :=
  pretty lid +:+ "_" +:+ String_of_id season.

(** One turn of [for (const f of fixtures) { ... }]. *)
Definition leagues_step (m : list (string * LeagueSummary)) (f : Fixture)
  : list (string * LeagueSummary) :=
  let lid := league f ?. league_id in
  let name := league f ?. league_name in
  let country := league f ?. league_country in
  let season := league f ?. league_season in
  match lid with
  | None => m
  | Some l =>
      if negb (truthy l) then m
      else
        let k := league_key l season in
        if negb (omap_has m k)
        then omap_set m k {| ls_id := l; ls_name := name;
                             ls_country := country; ls_season := season |}
        else m
  end.

Definition leagues_map (fixtures : list Fixture) : list (string * LeagueSummary) :=
  fold_left leagues_step fixtures [].

(** [a || b] on two numbers that are never [NaN]. *)
Definition num_or (a b : Z) : Z := if truthy a then a else b.

(** [Array.prototype.sort(cmp)] is stable; with a consistent comparator every
    stable sort returns the same array.  It is modelled as the stable
    insertion sort. *)
Section Sort.
Context {A : Type} (cmp : A -> A -> Z).

Fixpoint sort_insert (x : A) (l : list A) : list A :=
  match l with
  | [] => [x]
  | y :: l' => if cmp x y <=? 0 then x :: y :: l' else y :: sort_insert x l'
  end.

Fixpoint Array_sort (l : list A) : list A :=
  match l with
  | [] => []
  | x :: l' => sort_insert x (Array_sort l')
  end.

End Sort.

Section Aggregator.
Context {R : Runtime}.

(** [const isoDay = (d) => d.toISOString().slice(0, 10);]
    The argument is the time value of [d]; [None] is an Invalid Date, on
    which [toISOString] throws. *)
Definition isoDay (d : option Z) : M string :=
  let! ms := or_throw d in
  let! s := or_throw (Date_toISOString ms) in
  ret (String.substring 0 10 s).

(** [new Date(d.getTime() - 86400000)] and [+ 86400000]; [NaN] propagates. *)
Definition day_before (d : option Z) : option Z :=
  match d with Some ms => Some (ms - 86400000) | None => None end.
Definition day_after (d : option Z) : option Z :=
  match d with Some ms => Some (ms + 86400000) | None => None end.

(** [async function fetchFixturesForDay(day)] *)
Definition fetchFixturesForDay (up : Upstream) (day : string) : M (list Fixture) :=
  let fixtures := [] in
  let! fixtures :=
    try_catch
      (let! fx := await_get (GetFixtures (ByDate day)) (fixtures_reply up (ByDate day)) in
       ret (or_default fx []))
      (ret fixtures) in
  if (length fixtures =? 0)%nat then
    let d := Date_parse (day +:+ "T00:00:00Z") in
    try_catch
      (let! from := isoDay (day_before d) in
       let! to := isoDay (day_after d) in
       let q := ByRange from to in
       let! fx2 := await_get (GetFixtures q) (fixtures_reply up q) in
       ret (or_default fx2 []))
      (ret fixtures)
  else ret fixtures.

(** *** Leagues of the day: [GET /api/leagues/:date] *)

(** [(a, b) => String(a.country || "").localeCompare(b.country || "") ||
               String(a.name || "").localeCompare(b.name || "")] *)
Definition compare_leagues (a b : LeagueSummary) : Z :=
  num_or (localeCompare (option_or (ls_country a) "") (option_or (ls_country b) ""))
         (localeCompare (option_or (ls_name a) "") (option_or (ls_name b) "")).

(** The grouping loop and the sort of the leagues handler. *)
Definition buildLeaguesForDay (fixtures : list Fixture) : list LeagueSummary :=
  Array_sort compare_leagues (omap_values (leagues_map fixtures)).

(** [app.get("/api/leagues/:date", ...)].  [t_get] and [t_set] are the clock
    readings of [getCache] and [setCache]. *)
Definition leagues_handler (up : Upstream) (day : string) (t_get t_set : Z)
  (w : World) : response LeaguesPayload * World :=
  let key := "L_" +:+ day in
  match getCacheM leagues_cache key (15 * 60 * 1000) t_get w with
  | (Ret (Val hit), w') => (Json hit, w')
  | (_, w') =>
      respond
        (let! fixtures := fetchFixturesForDay up day in
         let leagues := buildLeaguesForDay fixtures in
         let payload := {| lp_date := day; lp_count := length leagues;
                           lp_leagues := leagues |} in
         let! _ := setCacheM leagues_cache key (Val payload) t_set in
         ret (Json payload))
        "leagues-failed" w'
  end.

(** *** Matches of the day: [GET /api/day/:date] *)

(** [Number(x)] of a numeric id that may be missing: [NaN] when missing. *)
Definition Number_of_id (o : option Z) : option Q :=
  match o with Some z => Some (inject_Z z) | None => None end.

(** [a === b] on two numbers; [NaN] equals nothing. *)
Definition num_strict_eq (a b : option Q) : bool :=
  match a, b with
  | Some x, Some y => Qeq_bool x y
  | _, _ => false
  end.

(** [const leagueId = req.query.league ? Number(req.query.league) : null;]
    [Null] is [null], [Val None] is [NaN]. *)
Definition parse_leagueId (query_league : option string) : maybe (option Q) :=
  if truthy query_league then
    match query_league with
    | Some s => Val (Number_of_string s)
    | None => Null
    end
  else Null.

(** ["D_" + day + (leagueId ? "_L" + leagueId : "")] *)
Definition day_key (day : string) (leagueId : maybe (option Q)) : string :=
  "D_" +:+ day +:+
  (if truthy leagueId then
     match leagueId with
     | Val (Some n) => "_L" +:+ String_of_number n
     | _ => ""
     end
   else "").

(** [leagueId || null] *)
Definition leagueFilter_of (leagueId : maybe (option Q)) : option Q :=
  if truthy leagueId then
    match leagueId with Val n => n | _ => None end
  else None.

(** [(f) => ({ match: {...}, lineupsConfirmed: false, availability: [] })] *)
Definition day_entry (f : Fixture) : DayEntry :=
  {| de_match :=
       {| match_id := String_of_id (fixture f ?. info_id);
          match_home := teams f ?. home ?. team_name;
          match_away := teams f ?. away ?. team_name;
          match_homeId := teams f ?. home ?. team_id;
          match_awayId := teams f ?. away ?. team_id;
          match_league := league f ?. league_name;
          match_leagueId := league f ?. league_id;
          match_season := league f ?. league_season;
          match_country :=
            (let c := league f ?. league_country in
             if truthy c then c else None);
          match_time := fixture f ?. info_date;
          match_dateISO := fixture f ?. info_date |};
     de_lineupsConfirmed := false;
     de_availability := [] |}.

(** [if (leagueId) fixtures = fixtures.filter(
       (f) => Number(f?.league?.id) === leagueId);] *)
Definition filter_league (leagueId : maybe (option Q)) (fixtures : list Fixture)
  : list Fixture :=
  if truthy leagueId then
    match leagueId with
    | Val n =>
        List.filter
          (fun f => num_strict_eq (Number_of_id (league f ?. league_id)) n)
          fixtures
    | _ => fixtures
    end
  else fixtures.

(** [app.get("/api/day/:date", ...)] *)
Definition day_handler (up : Upstream) (day : string)
  (query_league : option string) (t_get t_set : Z) (w : World)
  : response DayPayload * World :=
  let leagueId := parse_leagueId query_league in
  let key := day_key day leagueId in
  match getCacheM day_cache key (10 * 60 * 1000) t_get w with
  | (Ret (Val hit), w') => (Json hit, w')
  | (_, w') =>
      respond
        (let! fixtures := fetchFixturesForDay up day in
         let fixtures := filter_league leagueId fixtures in
         let out := map day_entry fixtures in
         let payload := {| dp_date := day; dp_matches := out;
                           dp_leagueFilter := leagueFilter_of leagueId |} in
         let! _ := setCacheM day_cache key (Val payload) t_set in
         ret (Json payload))
        "day-failed" w'
  end.

End Aggregator.

(* ===================================================================== *)
(** ** Fixture detail enrichment: [GET /api/fixture/:id/details] *)
(* ===================================================================== *)

(** The body [{ injuries, lineupsConfirmed }].  On the cached path the two
    fields are whatever [getCache] returned. *)
Record Details : Type := {
  d_injuries : maybe (list Injury);
  d_lineupsConfirmed : maybe bool
}.

(** [app.get("/api/fixture/:id/details", ...)].  [t1], [t2] are the clock
    readings of the two [getCache], [t3], [t4] of the two [setCache]. *)
Definition details_handler (up : Upstream) (id : string) (t1 t2 t3 t4 : Z)
  (w : World) : response Details * World :=
  respond
    (let! cInj := getCacheM injuries_cache id (30 * 60 * 1000) t1 in
     let! cLin := getCacheM lineups_cache id (30 * 60 * 1000) t2 in
     if truthy cInj && negb (is_undefined cLin) then
       ret (Json {| d_injuries := cInj; d_lineupsConfirmed := cLin |})
     else
       let injuries := [] in
       let lineupsConfirmed := false in
       let! injuries :=
         try_catch
           (let! r1 := await_get (GetInjuries id) (injuries_reply up id) in
            ret (or_default r1 []))
           (ret injuries) in
       let! lineupsConfirmed :=
         try_catch
           (let! r2 := await_get (GetLineups id) (lineups_reply up id) in
            let arr := or_default r2 [] in
            ret (0 <? length arr)%nat)
           (ret lineupsConfirmed) in
       let! _ := setCacheM injuries_cache id (Val injuries) t3 in
       let! _ := setCacheM lineups_cache id (Val lineupsConfirmed) t4 in
       ret (Json {| d_injuries := Val injuries;
                    d_lineupsConfirmed := Val lineupsConfirmed |}))
    "details-failed" w.

(* ===================================================================== *)
(** ** Prediction engine: [GET /api/predict/:fixtureId] *)
(* ===================================================================== *)

Open Scope Q_scope.

Inductive Outcome : Type := HOME | DRAW | AWAY.

(** The [prob] object of the response. *)
Record Prob : Type := {
  prob_home : Q;
  prob_draw : Q;
  prob_away : Q;
  prob_lambdaHome : Q;
  prob_lambdaAway : Q;
  prob_ais_home : Q;
  prob_ais_away : Q
}.

Record Prediction : Type := {
  pr_fixtureId : string;
  pr_leagueId : option Z;
  pr_season : option Z;
  pr_prob : Prob;
  pr_pick : Outcome;
  pr_note : string
}.

(** [x.toFixed(d)] read back as a number by the unary [+]: the nearest
    multiple of [10^-d], a tie going away from zero. *)
Definition toFixed (d : nat) (x : Q) : Q :=
  let s := inject_Z (10 ^ Z.of_nat d) in
  if Qle_bool 0 x
  then inject_Z (Qfloor (x * s + (1 # 2))) / s
  else - (inject_Z (Qfloor ((- x) * s + (1 # 2))) / s).

(** [const imp = (arr) => ((arr && arr.length) ? arr.length : 0) * 0.08;]
    [None] is the [undefined] of a team without an entry in [by]. *)
Definition imp (arr : option (list Injury)) : Q :=
  (match arr with
   | Some a => if truthy (Z.of_nat (length a)) then inject_Z (Z.of_nat (length a)) else 0
   | None => 0
   end) * (8 # 100).

(** One turn of [for (const it of resp) { ... }]; [by] is keyed by the team
    id turned into a property name. *)
Definition group_step (by_ : gmap string (list Injury)) (it : Injury)
  : gmap string (list Injury) :=
  let tid := injury_team it ?. team_id in
  if negb (truthy tid) then by_
  else
    let k := String_of_id tid in
    let by_ := match by_ !! k with
               | Some _ => by_
               | None => <[k := []]> by_
               end in
    match by_ !! k with
    | Some arr => <[k := arr ++ [it]]> by_
    | None => by_
    end.

Definition group_by_team (resp : list Injury) : gmap string (list Injury) :=
  fold_left group_step resp ∅.

(** [const fact = (n) => (n <= 1 ? 1 : n * fact(n - 1));]
    The product is exact; that of doubles is exact up to [fact(22)], and the
    enumeration passes 0..10. *)
Fixpoint fact (n : nat) : Q :=
  match n with
  | O => 1
  | S m => if (n <=? 1)%nat then 1 else inject_Z (Z.of_nat n) * fact m
  end.

(** [Math.max(a, b)] *)
Definition Math_max (a b : Q) : Q := if Qle_bool a b then b else a.

(** The three accumulators [pH], [pD], [pA]. *)
Record Buckets : Type := { pH : Q; pD : Q; pA : Q }.

(** [Number(x)] of a JSON primitive. *)
Definition Number_of_prim {R : Runtime} (x : prim) : option Q :=
  match x with
  | PUndefined => None
  | PNull => Some 0
  | PNum q => Some q
  | PStr s => Number_of_string s
  end.

(** [H?.goals?.for?.average?.home] and the like. *)
Definition stat (H : maybe TeamStats) (field : TeamStats -> prim) : prim :=
  match H with Val s => field s | _ => PUndefined end.

Section Engine.
Context {R : Runtime}.

(** [const pois = (l, k) => Math.exp(-l) * Math.pow(l, k) / fact(k);]
    Products and powers are exact: they neither underflow nor overflow as
    those of doubles do for very large lambdas, so the properties of the
    enumeration below say for which lambdas they are stated. *)
Definition pois (l : Q) (k : nat) : Q :=
  Math_exp (- l) * l ^ Z.of_nat k / fact k.

(** The body of the inner loop. *)
Definition score_step (ph : Q) (lambdaAway : Q) (gh : nat) (b : Buckets) (ga : nat)
  : Buckets :=
  let pa := pois lambdaAway ga in
  if (ga <? gh)%nat then {| pH := pH b + ph * pa; pD := pD b; pA := pA b |}
  else if (gh =? ga)%nat then {| pH := pH b; pD := pD b + ph * pa; pA := pA b |}
  else {| pH := pH b; pD := pD b; pA := pA b + ph * pa |}.

(** [for (let ga = 0; ga <= 10; ga++) { ... }] *)
Definition away_loop (ph : Q) (lambdaAway : Q) (gh : nat) (b : Buckets) : Buckets :=
  fold_left (score_step ph lambdaAway gh) (seq 0 11) b.

(** The body of the outer loop:
    [const ph = pois(lambdaHome, gh); for (let ga = 0; ...) { ... }] *)
Definition home_turn (lambdaHome lambdaAway : Q) (b : Buckets) (gh : nat) : Buckets :=
  let ph := pois lambdaHome gh in
  away_loop ph lambdaAway gh b.

(** [let pH = 0, pD = 0, pA = 0;
     for (let gh = 0; gh <= 10; gh++) { ... }] *)
Definition scorelines (lambdaHome lambdaAway : Q) : Buckets :=
  fold_left (home_turn lambdaHome lambdaAway) (seq 0 11)
    {| pH := 0; pD := 0; pA := 0 |}.

(** [const tot = pH + pD + pA || 1;] and the [prob] object. *)
Definition make_prob (lambdaHome lambdaAway aisHome aisAway : Q) : Prob :=
  let b := scorelines lambdaHome lambdaAway in
  let tot := (let s := pH b + pD b + pA b in if truthy s then s else 1) in
  {| prob_home := toFixed 1 (pH b / tot * 100);
     prob_draw := toFixed 1 (pD b / tot * 100);
     prob_away := toFixed 1 (pA b / tot * 100);
     prob_lambdaHome := toFixed 2 lambdaHome;
     prob_lambdaAway := toFixed 2 lambdaAway;
     prob_ais_home := toFixed 2 aisHome;
     prob_ais_away := toFixed 2 aisAway |}.

(** [let pick = "DRAW"; const conf = Math.max(prob.home, prob.draw, prob.away);
     if (prob.home === conf) pick = "HOME";
     if (prob.away === conf) pick = "AWAY";] *)
Definition pick_outcome (prob : Prob) : Outcome :=
  let pick := DRAW in
  let conf := Math_max (Math_max (prob_home prob) (prob_draw prob)) (prob_away prob) in
  let pick := if Qeq_bool (prob_home prob) conf then HOME else pick in
  let pick := if Qeq_bool (prob_away prob) conf then AWAY else pick in
  pick.

(** [(hGF + aGA) / 2] and [(aGF + hGA) / 2], with the [Number(...) || default]
    reads of the four averages. *)
Definition baseline_lambdas (H A : maybe TeamStats) : Q * Q :=
  let hGF := option_or (Number_of_prim (stat H goals_for_average_home)) (12 # 10) in
  let hGA := option_or (Number_of_prim (stat H goals_against_average_home)) 1 in
  let aGF := option_or (Number_of_prim (stat A goals_for_average_away)) (11 # 10) in
  let aGA := option_or (Number_of_prim (stat A goals_against_average_away)) (11 # 10) in
  ((hGF + aGA) / 2, (aGF + hGA) / 2).

(** The injuries block: [try { ... aisHome = imp(by[homeId]); ... } catch (e) {}] *)
Definition injury_impacts (up : Upstream) (f : Fixture) (homeId awayId : option Z)
  : M (Q * Q) :=
  let aisHome := 0 in
  let aisAway := 0 in
  try_catch
    (let! info := or_throw (fixture f) in
     let param := String_of_id (info_id info) in
     let! injRes := await_get (GetInjuries param) (injuries_reply up param) in
     let resp := or_default injRes [] in
     let by_ := group_by_team resp in
     ret (imp (by_ !! String_of_id homeId), imp (by_ !! String_of_id awayId)))
    (ret (aisHome, aisAway)).

(** [`${teamId}_${leagueId}_${season}`] *)
Definition stats_key (teamId leagueId season : option Z) : string :=
  String_of_id teamId +:+ "_" +:+ String_of_id leagueId +:+ "_" +:+ String_of_id season.

(** [if (!H) { const r = await axios.get(...); H = r.data?.response;
               setCache(cache.stats, key, H); }] *)
Definition ensure_stats (up : Upstream) (H : maybe TeamStats)
  (key : string) (teamId leagueId season : option Z) (t_set : Z)
  : M (maybe TeamStats) :=
  if negb (truthy H) then
    let! r := await_get (GetStatistics teamId leagueId season)
                        (statistics_reply up teamId leagueId season) in
    let H := r in
    let! _ := setCacheM stats_cache key H t_set in
    ret H
  else ret H.

(** [app.get("/api/predict/:fixtureId", ...)].  [tH], [tA] are the clock
    readings of the two [getCache], [tsH], [tsA] of the two [setCache]. *)
Definition predict_handler (up : Upstream) (fixtureId : string)
  (tH tA tsH tsA : Z) (w : World) : response Prediction * World :=
  respond
    (let! fx := await_get (GetFixtures (ById fixtureId))
                          (fixtures_reply up (ById fixtureId)) in
     match (match fx with Val l => head l | _ => None end) with
     | None => ret (Status 404 "Fixture non trovata")
     | Some f =>
         let leagueId := league f ?. league_id in
         let season := league f ?. league_season in
         let homeId := teams f ?. home ?. team_id in
         let awayId := teams f ?. away ?. team_id in
         let keyH := stats_key homeId leagueId season in
         let keyA := stats_key awayId leagueId season in
         let! H := getCacheM stats_cache keyH (24 * 60 * 60 * 1000) tH in
         let! A := getCacheM stats_cache keyA (24 * 60 * 60 * 1000) tA in
         let! H := ensure_stats up H keyH homeId leagueId season tsH in
         let! A := ensure_stats up A keyA awayId leagueId season tsA in
         let '(lambdaHome, lambdaAway) := baseline_lambdas H A in
         let! ais := injury_impacts up f homeId awayId in
         let '(aisHome, aisAway) := ais in
         let lambdaHome := Math_max (1 # 10) (lambdaHome * (1 - aisHome)) in
         let lambdaAway := Math_max (1 # 10) (lambdaAway * (1 - aisAway)) in
         let prob := make_prob lambdaHome lambdaAway aisHome aisAway in
         let pick := pick_outcome prob in
         let! info := or_throw (fixture f) in
         ret (Json {| pr_fixtureId := String_of_id (info_id info);
                      pr_leagueId := leagueId; pr_season := season;
                      pr_prob := prob; pr_pick := pick;
                      pr_note := "Poisson + AIS" |})
     end)
    "predict-failed" w.

End Engine.

Close Scope Q_scope.

(* ===================================================================== *)
(** ** A reference runtime *)
(* ===================================================================== *)

(** A small executable instance of [Runtime], used to run the handlers on
    concrete inputs.  It covers the inputs the server meets in normal use:
    calendar days with four-digit years, decimal integers, ordinal string
    comparison, and a rational approximation of the exponential.  The
    theorems do not depend on it. *)
Module Reference.

Definition digit (c : Ascii.ascii) : option Z :=
  let n := Z.of_nat (Ascii.nat_of_ascii c) in
  if (48 <=? n) && (n <=? 57) then Some (n - 48) else None.

Fixpoint digits_go (s : string) (acc : Z) : option Z :=
  match s with
  | EmptyString => Some acc
  | String c s' =>
      match digit c with
      | Some d => digits_go s' (10 * acc + d)
      | None => None
      end
  end.

(** A non-empty run of decimal digits. *)
Definition digits (s : string) : option Z :=
  match s with
  | EmptyString => None
  | _ => digits_go s 0
  end.

(** Days since 1970-01-01 of a civil date, and back. *)
Definition days_from_civil (y m d : Z) : Z :=
  let y' := if m <=? 2 then y - 1 else y in
  let era := y' / 400 in
  let yoe := y' - era * 400 in
  let doy := (153 * (m + (if 2 <? m then -3 else 9)) + 2) / 5 + d - 1 in
  let doe := yoe * 365 + yoe / 4 - yoe / 100 + doy in
  era * 146097 + doe - 719468.

Definition civil_from_days (z : Z) : Z * Z * Z :=
  let z := z + 719468 in
  let era := z / 146097 in
  let doe := z - era * 146097 in
  let yoe := (doe - doe / 1460 + doe / 36524 - doe / 146096) / 365 in
  let doy := doe - (365 * yoe + yoe / 4 - yoe / 100) in
  let mp := (5 * doy + 2) / 153 in
  let d := doy - (153 * mp + 2) / 5 + 1 in
  let m := mp + (if mp <? 10 then 3 else -9) in
  let y := yoe + era * 400 + (if m <=? 2 then 1 else 0) in
  (y, m, d).

(** [new Date("YYYY-MM-DDT00:00:00Z").getTime()] for a day of the calendar. *)
Definition Date_parse (s : string) : option Z :=
  if negb (String.eqb (String.substring 4 1 s) "-"
           && String.eqb (String.substring 7 1 s) "-"
           && String.eqb (String.substring 10 10 s) "T00:00:00Z"
           && (String.length s =? 20)%nat)
  then None
  else
    match digits (String.substring 0 4 s), digits (String.substring 5 2 s),
          digits (String.substring 8 2 s) with
    | Some y, Some m, Some d =>
        let n := days_from_civil y m d in
        match civil_from_days n with
        | (y', m', d') =>
            if (y' =? y) && (m' =? m) && (d' =? d) && (1 <=? m) && (1 <=? d)
            then Some (n * 86400000)
            else None
        end
    | _, _, _ => None
    end.

Fixpoint pad_go (fuel width : nat) (s : string) : string :=
  match fuel with
  | O => s
  | S fuel' =>
      if (String.length s <? width)%nat then pad_go fuel' width ("0" +:+ s) else s
  end.

(** [String(n).padStart(width, "0")] *)
Definition pad (width : nat) (n : Z) : string := pad_go width width (pretty n).

(** [new Date(ms).toISOString()] for the years 0000 to 9999. *)
Definition Date_toISOString (ms : Z) : option string :=
  let days := ms / 86400000 in
  let r := ms mod 86400000 in
  match civil_from_days days with
  | (y, m, d) =>
      if (0 <=? y) && (y <=? 9999) then
        Some (pad 4 y +:+ "-" +:+ pad 2 m +:+ "-" +:+ pad 2 d +:+ "T" +:+
              pad 2 (r / 3600000) +:+ ":" +:+ pad 2 (r / 60000 mod 60) +:+ ":" +:+
              pad 2 (r / 1000 mod 60) +:+ "." +:+ pad 3 (r mod 1000) +:+ "Z")
      else None
  end.

(** [Number(s)] for the empty string and for decimal integers. *)
Definition Number_of_string (s : string) : option Q :=
  match s with
  | EmptyString => Some 0%Q
  | String "-" s' => option_map (fun z => inject_Z (- z)) (digits s')
  | _ => option_map inject_Z (digits s)
  end.

(** [String(n)]: the decimal numeral of an integer; a fraction is written
    with a bar. *)
Definition String_of_number (q : Q) : string :=
  let q := Qred q in
  if (Qden q =? 1)%positive then pretty (Qnum q)
  else pretty (Qnum q) +:+ "/" +:+ pretty (Zpos (Qden q)).

(** Comparison by code units. *)
Definition localeCompare (a b : string) : Z :=
  match String.compare a b with
  | Lt => -1
  | Eq => 0
  | Gt => 1
  end.

Open Scope Q_scope.

(** [1 + y/k (1 + y/(k+1) (1 + ...))]: the exponential series, [n] terms. *)
Fixpoint exp_series (n : nat) (k : positive) (y : Q) : Q :=
  match n with
  | O => 1
  | S n' => 1 + y * (1 # k) * exp_series n' (Pos.succ k) y
  end.

Definition Math_exp (x : Q) : Q :=
  if Qle_bool 0 x then Qred (exp_series 4 1 x)
  else Qred (/ exp_series 4 1 (- x)).

Close Scope Q_scope.

#[export] Instance runtime : Runtime :=
  Build_Runtime Date_parse Date_toISOString Number_of_string String_of_number
                localeCompare Math_exp.

End Reference.

(* ===================================================================== *)
(** * Properties *)
(* ===================================================================== *)

(** ** Freshness cache *)

(** C4. For every cache kind and key: a [setCache] at time [t0] followed by a
    [getCache] at [t1] within the kind's TTL returns exactly the stored value
    and leaves the map alone; a [getCache] strictly after the TTL returns
    [null], deletes the entry, and every later [getCache] on the resulting map
    returns [null] again. *)
Theorem getCache_setCache_ttl :
  forall (T : Type) (c : kind) (m : gmap string (entry T)) (k : string)
         (d : maybe T) (t0 t1 : Z),
    (t1 - t0 <= ttl_of c ->
       getCache (setCache m k d t0) k (ttl_of c) t1
       = (d, setCache m k d t0))
    /\ (ttl_of c < t1 - t0 ->
        exists m',
          getCache (setCache m k d t0) k (ttl_of c) t1 = (Null, m')
          /\ m' !! k = None
          /\ forall t2, getCache m' k (ttl_of c) t2 = (Null, m')).
Proof.
  intros T c m k d t0 t1. unfold getCache, setCache.
  rewrite lookup_insert_eq. cbn [ts data]. split; intros Hage.
  - destruct (Z.gtb_spec (t1 - t0) (ttl_of c)) as [Hgt|_]; [lia|reflexivity].
  - destruct (Z.gtb_spec (t1 - t0) (ttl_of c)) as [_|Hle]; [|lia].
    exists (delete k (<[k:=Entry t0 d]> m)). split; [reflexivity|].
    split; [apply lookup_delete_eq|].
    intros t2. now rewrite lookup_delete_eq.
Qed.

Lemma getCache_setCache_ttl_witness :
  getCache (setCache (∅ : gmap string (entry bool)) "42" (Val true) 1000)
           "42" (ttl_of Lineups) 1801000
  = (Val true, setCache ∅ "42" (Val true) 1000)
  /\ exists m',
      getCache (setCache (∅ : gmap string (entry bool)) "42" (Val true) 1000)
               "42" (ttl_of Lineups) 1801001 = (Null, m')
      /\ m' !! "42" = None
      /\ forall t2, getCache m' "42" (ttl_of Lineups) t2 = (Null, m').
Proof.
  split.
  - apply (proj1 (getCache_setCache_ttl bool Lineups ∅ "42" (Val true)
                    1000 1801000)).
    vm_compute. discriminate.
  - apply (proj2 (getCache_setCache_ttl bool Lineups ∅ "42" (Val true)
                    1000 1801001)).
    vm_compute. reflexivity.
Defined.

(** ** Fixture aggregator *)

(** The records a call contributes: a rejected call, or a body without
    [response], counts as zero records. *)
Definition records_of (r : reply (list Fixture)) : list Fixture :=
  match r with
  | Resolved body => or_default body []
  | Rejected _ => []
  end.

Definition logged (w : World) (l : list call) : World :=
  {| caches := caches w; calls := calls w ++ l |}.

(** C8. [fetchFixturesForDay] never throws, whatever the provider answers.
    For a day the runtime can parse and shift by one day, it first asks for
    the exact date; it asks again, for the range from the day before to the
    day after, exactly when the first call contributed zero records (a
    rejected call included), and returns the records of the last call made. *)
Theorem fetchFixturesForDay_fallback :
  forall (R : Runtime) (up : Upstream) (day : string) (w : World),
    (exists fixtures w', fetchFixturesForDay up day w = (Ret fixtures, w'))
    /\ forall d sfrom sto,
        Date_parse (day +:+ "T00:00:00Z") = Some d ->
        Date_toISOString (d - 86400000) = Some sfrom ->
        Date_toISOString (d + 86400000) = Some sto ->
        let exact := ByDate day in
        let range := ByRange (String.substring 0 10 sfrom)
                             (String.substring 0 10 sto) in
        let first := records_of (fixtures_reply up exact) in
        (first <> [] ->
           fetchFixturesForDay up day w
           = (Ret first, logged w [GetFixtures exact]))
        /\ (first = [] ->
            fetchFixturesForDay up day w
            = (Ret (records_of (fixtures_reply up range)),
               logged w [GetFixtures exact; GetFixtures range])).
Proof.
  intros R up day w. split.
  - unfold fetchFixturesForDay, try_catch, bind, await_get, ret, isoDay, or_throw.
    destruct (fixtures_reply up (ByDate day)) as [st|body]; cbn.
    + destruct (day_before _) as [b|]; cbn; [|eauto].
      destruct (Date_toISOString b); cbn; [|eauto].
      destruct (day_after _) as [a|]; cbn; [|eauto].
      destruct (Date_toISOString a); cbn; [|eauto].
      destruct (fixtures_reply up _); cbn; eauto.
    + destruct (or_default body []) as [|f fs]; cbn; [|eauto].
      destruct (day_before _) as [b|]; cbn; [|eauto].
      destruct (Date_toISOString b); cbn; [|eauto].
      destruct (day_after _) as [a|]; cbn; [|eauto].
      destruct (Date_toISOString a); cbn; [|eauto].
      destruct (fixtures_reply up _); cbn; eauto.
  - intros d sfrom sto Hd Hfrom Hto exact range first.
    assert (Hiso : forall w0 : World,
               (let! from := isoDay (day_before (Some d)) in
                let! to := isoDay (day_after (Some d)) in
                let q := ByRange from to in
                let! fx2 := await_get (GetFixtures q) (fixtures_reply up q) in
                ret (or_default fx2 [])) w0
               = match fixtures_reply up range with
                 | Resolved body => (Ret (or_default body []), logged w0 [GetFixtures range])
                 | Rejected _ => (Throw, logged w0 [GetFixtures range])
                 end).
    { intros w0. unfold isoDay, bind, or_throw, ret, await_get, logged.
      cbn. rewrite Hfrom, Hto. fold range.
      destruct (fixtures_reply up range); reflexivity. }
    unfold fetchFixturesForDay. rewrite Hd.
    unfold try_catch at 2. unfold bind at 1.
    subst first exact. unfold records_of.
    unfold try_catch, bind at 1, await_get, ret at 1 2.
    destruct (fixtures_reply up (ByDate day)) as [st|body]; cbn.
    + split; [congruence|intros _].
      rewrite Hiso. unfold logged, ret.
      destruct (fixtures_reply up range); cbn;
        rewrite <- app_assoc; reflexivity.
    + destruct (or_default body []) as [|f fs] eqn:Hb; cbn.
      * split; [congruence|intros _].
        rewrite Hiso. unfold logged, ret.
        destruct (fixtures_reply up range); cbn;
          rewrite <- app_assoc; reflexivity.
      * split; [reflexivity|discriminate].
Qed.

(** Scenario: nothing on the exact date, three fixtures in the window. *)
Definition sample_fixture (id lid season : Z) (name country : string) : Fixture :=
  {| fixture := Some {| info_id := Some id;
                        info_date := Some "2024-05-01T18:00:00+00:00" |};
     league := Some {| league_id := Some lid; league_name := Some name;
                       league_country := Some country;
                       league_season := Some season |};
     teams := Some {| home := Some {| team_id := Some 10; team_name := Some "Home FC" |};
                      away := Some {| team_id := Some 20; team_name := Some "Away FC" |} |} |}.

Definition three_fixtures : list Fixture :=
  [sample_fixture 1 39 2023 "Premier League" "England";
   sample_fixture 2 135 2023 "Serie A" "Italy";
   sample_fixture 3 39 2023 "Premier League" "England"].

Definition sample_stats (gfh gah gfa gaa : Q) : TeamStats :=
  {| goals_for_average_home := PNum gfh; goals_against_average_home := PNum gah;
     goals_for_average_away := PNum gfa; goals_against_average_away := PNum gaa |}.

Definition window_upstream : Upstream :=
  {| fixtures_reply q :=
       match q with
       | ByDate _ => Resolved (Val [])
       | ByRange _ _ => Resolved (Val three_fixtures)
       | ById _ => Resolved (Val [sample_fixture 1 39 2023 "Premier League" "England"])
       end;
     statistics_reply _ _ _ := Resolved (Val (sample_stats (3 # 2) (3 # 2) (3 # 2) (3 # 2)));
     injuries_reply _ := Resolved (Val []);
     lineups_reply _ := Resolved (Val [{| lineup_team := None |}]) |}.

Definition fresh_world : World := {| caches := empty_caches; calls := [] |}.

Lemma fetchFixturesForDay_fallback_witness :
  fetchFixturesForDay (R := Reference.runtime) window_upstream "2024-05-01" fresh_world
  = (Ret three_fixtures,
     logged fresh_world
       [GetFixtures (ByDate "2024-05-01");
        GetFixtures (ByRange "2024-04-30" "2024-05-02")]).
Proof.
  apply (proj2 (proj2 (fetchFixturesForDay_fallback Reference.runtime
                         window_upstream "2024-05-01" fresh_world)
                  1714521600000 "2024-04-30T00:00:00.000Z"
                  "2024-05-02T00:00:00.000Z" eq_refl eq_refl eq_refl)).
  reflexivity.
Defined.

(** C10. A [league] query value whose [Number] is [0] or [NaN] is handled
    exactly as a request without the parameter: the cache key is the one of
    the unfiltered day, no fixture is filtered out, [meta.leagueFilter] is
    [null], and the handler answers and updates the caches identically. *)
Theorem day_handler_falsy_league :
  forall (R : Runtime) (up : Upstream) (day q : string) (t_get t_set : Z)
         (w : World),
    (Number_of_string q = None
     \/ exists n, Number_of_string q = Some n /\ (n == 0)%Q) ->
    let leagueId := parse_leagueId (Some q) in
    day_key day leagueId = day_key day (parse_leagueId None)
    /\ day_key day leagueId = "D_" +:+ day +:+ ""
    /\ (forall fixtures, filter_league leagueId fixtures = fixtures)
    /\ leagueFilter_of leagueId = None
    /\ day_handler up day (Some q) t_get t_set w
       = day_handler up day None t_get t_set w.
Proof.
  intros R up day q t_get t_set w Hq leagueId.
  assert (Hfalsy : truthy leagueId = false).
  { subst leagueId. unfold parse_leagueId.
    destruct (truthy (Some q)); [|reflexivity].
    destruct Hq as [->|(n & -> & Hn)]; [reflexivity|].
    change (negb (Qeq_bool n 0) = false).
    apply Qeq_bool_iff in Hn. now rewrite Hn. }
  assert (Hkey : day_key day leagueId = "D_" +:+ day +:+ "").
  { unfold day_key. now rewrite Hfalsy. }
  assert (Hfilter : forall fixtures, filter_league leagueId fixtures = fixtures).
  { intros fixtures. unfold filter_league. now rewrite Hfalsy. }
  assert (Hmeta : leagueFilter_of leagueId = None).
  { unfold leagueFilter_of. now rewrite Hfalsy. }
  split; [rewrite Hkey; reflexivity|].
  split; [exact Hkey|]. split; [exact Hfilter|]. split; [exact Hmeta|].
  unfold day_handler. fold leagueId. rewrite Hkey, Hmeta.
  change (day_key day (parse_leagueId None)) with ("D_" +:+ day +:+ "").
  change (leagueFilter_of (parse_leagueId None)) with (@None Q).
  destruct (getCacheM day_cache _ _ t_get w) as [[[| |hit]|] w']; try reflexivity;
    unfold respond, bind;
    destruct (fetchFixturesForDay up day w') as [[fixtures|] w'']; try reflexivity;
    rewrite Hfilter; reflexivity.
Qed.

Lemma day_handler_falsy_league_witness :
  day_handler (R := Reference.runtime) window_upstream "2024-05-01" (Some "0") 0 0 fresh_world
  = day_handler (R := Reference.runtime) window_upstream "2024-05-01" None 0 0 fresh_world
  /\ day_handler (R := Reference.runtime) window_upstream "2024-05-01" (Some "serie-a") 0 0 fresh_world
     = day_handler (R := Reference.runtime) window_upstream "2024-05-01" None 0 0 fresh_world.
Proof.
  split.
  - apply (day_handler_falsy_league Reference.runtime window_upstream
             "2024-05-01" "0" 0 0 fresh_world).
    right. exists 0%Q. split; reflexivity.
  - apply (day_handler_falsy_league Reference.runtime window_upstream
             "2024-05-01" "serie-a" 0 0 fresh_world).
    left. reflexivity.
Defined.

(** ** Fixture detail enrichment *)

(** [getCache] returns [null] on a miss, never [undefined]. *)
Lemma getCache_miss_is_null :
  forall (T : Type) (m : gmap string (entry T)) (k : string) (ttl now : Z),
    m !! k = None \/ (exists h, m !! k = Some h /\ ttl < now - ts h) ->
    fst (getCache m k ttl now) = Null.
Proof.
  intros T m k ttl now [Hk|(h & Hk & Hold)]; unfold getCache; rewrite Hk.
  - reflexivity.
  - destruct (Z.gtb_spec (now - ts h) ttl); [reflexivity|lia].
Qed.

(** Whenever the injuries entry is fresh, the details handler answers from
    the caches without calling the provider, whatever the lineups lookup
    returned: the test [cLin !== undefined] holds for the [null] of a miss. *)
Lemma details_handler_cached_path :
  forall (up : Upstream) (id : string) (t1 t2 t3 t4 : Z) (w : World)
         (inj : list Injury),
    fst (getCache (cache_injuries (caches w)) id (30 * 60 * 1000) t1) = Val inj ->
    fst (getCache (cache_lineups (caches w)) id (30 * 60 * 1000) t2) = Null ->
    exists w',
      details_handler up id t1 t2 t3 t4 w
      = (Json {| d_injuries := Val inj; d_lineupsConfirmed := Null |}, w')
      /\ calls w' = calls w.
Proof.
  intros up id t1 t2 t3 t4 w inj Hinj Hlin.
  destruct (getCache (cache_injuries (caches w)) id (30 * 60 * 1000) t1)
    as [cInj m1] eqn:E1.
  destruct (getCache (cache_lineups (caches w)) id (30 * 60 * 1000) t2)
    as [cLin m2] eqn:E2.
  cbn [fst] in Hinj, Hlin. subst cInj cLin.
  unfold details_handler, respond, bind at 1, getCacheM at 1.
  cbn [view update injuries_cache]. rewrite E1.
  unfold bind at 1, getCacheM.
  cbn [view update lineups_cache caches calls cache_lineups]. rewrite E2.
  cbn. eexists. split; reflexivity.
Qed.

(** C2 (the code departs from the claim). A first request at time 0 fills both
    caches from the provider (lineups confirmed).  A second request reads the
    injuries entry at 1800000 ms, still fresh, and the lineups entry one
    millisecond later, now stale: it answers from the cache with
    [lineupsConfirmed: null] and calls the provider not at all. *)
Theorem details_handler_null_lineups :
  let w1 := snd (details_handler window_upstream "1" 0 0 0 0 fresh_world) in
  cache_injuries (caches w1) !! "1" = Some (Entry 0 (Val []))
  /\ cache_lineups (caches w1) !! "1" = Some (Entry 0 (Val true))
  /\ fst (details_handler window_upstream "1" 1800000 1800001 1800001 1800001 w1)
     = Json {| d_injuries := Val []; d_lineupsConfirmed := Null |}
  /\ calls (snd (details_handler window_upstream "1" 1800000 1800001 1800001 1800001 w1))
     = calls w1.
Proof. vm_compute. repeat split; reflexivity. Qed.

(** ** Prediction engine *)

Open Scope Q_scope.

(** The number of records [imp] counts. *)
Definition record_count (arr : option (list Injury)) : nat :=
  match arr with Some a => length a | None => 0 end.

Lemma imp_count :
  forall arr, imp arr == inject_Z (Z.of_nat (record_count arr)) * (8 # 100).
Proof.
  intros [a|]; unfold imp, record_count; [|reflexivity].
  unfold truthy, truthy_Z.
  destruct (Z.eqb_spec (Z.of_nat (length a)) 0) as [->|_]; reflexivity.
Qed.

(** C3 (amended). The injury impact of a side is 0.08 times its number of
    injury records, with no cap: it is never negative, and it is below 1
    exactly when the side has at most 12 records. *)
Theorem imp_range :
  forall arr : option (list Injury),
    imp arr == inject_Z (Z.of_nat (record_count arr)) * (8 # 100)
    /\ 0 <= imp arr
    /\ (imp arr < 1 <-> (record_count arr <= 12)%nat).
Proof.
  intros arr. pose proof (imp_count arr) as Himp.
  split; [exact Himp|].
  rewrite Himp. set (n := record_count arr).
  unfold Qle, Qlt. cbn. split; [lia|]. split; lia.
Qed.

Definition injury_of (team : Z) : Injury :=
  {| injury_team := Some {| team_id := Some team; team_name := None |};
     injury_player := None |}.

(** Thirteen injured players of the home team (id 10). *)
Definition crowded_infirmary : Upstream :=
  {| fixtures_reply := fixtures_reply window_upstream;
     statistics_reply := statistics_reply window_upstream;
     injuries_reply _ := Resolved (Val (repeat (injury_of 10) 13));
     lineups_reply := lineups_reply window_upstream |}.

(** C3, counterexample: with thirteen injury records for the home side the
    impact is 1.04, outside [0, 1). *)
Lemma imp_thirteen_records :
  exists aisHome aisAway w',
    injury_impacts crowded_infirmary
      (sample_fixture 1 39 2023 "Premier League" "England") (Some 10%Z) (Some 20%Z)
      fresh_world
    = (Ret (aisHome, aisAway), w')
    /\ aisHome == 104 # 100
    /\ ~ (0 <= aisHome < 1).
Proof.
  eexists _, _, _. split; [vm_compute; reflexivity|].
  split; [reflexivity|]. intros [_ H]. revert H. vm_compute. discriminate.
Qed.

Lemma Math_max_spec : forall a b, (a <= b /\ Math_max a b = b) \/ (b < a /\ Math_max a b = a).
Proof.
  intros a b. unfold Math_max. destruct (Qle_bool a b) eqn:E.
  - left. split; [now apply Qle_bool_iff|reflexivity].
  - right. split; [|reflexivity].
    apply Qnot_le_lt. intros H. apply Qle_bool_iff in H. congruence.
Qed.

Lemma Qeq_bool_true_iff : forall a b, Qeq_bool a b = true <-> a == b.
Proof. intros a b. apply Qeq_bool_iff. Qed.

Lemma Qeq_bool_false_iff : forall a b, Qeq_bool a b = false <-> ~ a == b.
Proof.
  intros a b. rewrite <- Qeq_bool_iff. destruct (Qeq_bool a b); split; congruence.
Qed.

(** Stepping through a computation. *)
Lemma bind_Ret :
  forall (A B : Type) (c : M A) (k : A -> M B) (w w' : World) (a : A),
    c w = (Ret a, w') -> bind c k w = k a w'.
Proof. intros A B c k w w' a E. unfold bind. now rewrite E. Qed.

Lemma bind_Throw :
  forall (A B : Type) (c : M A) (k : A -> M B) (w w' : World),
    c w = (Throw, w') -> bind c k w = (Throw, w').
Proof. intros A B c k w w' E. unfold bind. now rewrite E. Qed.

Ltac step :=
  lazymatch goal with
  | |- context [bind ?c ?k ?w] =>
      let E := fresh "E" in
      destruct (c w) as [[?|] ?] eqn:E;
      [ rewrite (bind_Ret _ _ c k w _ _ E)
      | rewrite (bind_Throw _ _ c k w _ E) ];
      cbv beta
  end.

(** A response of the predict handler carries the pick computed from the
    probabilities it carries. *)
Lemma predict_handler_pick :
  forall (R : Runtime) (up : Upstream) (fixtureId : string) (tH tA tsH tsA : Z)
         (w w' : World) (p : Prediction),
    predict_handler up fixtureId tH tA tsH tsA w = (Json p, w') ->
    pr_pick p = pick_outcome (pr_prob p).
Proof.
  intros R up fixtureId tH tA tsH tsA w w' p.
  unfold predict_handler, respond.
  step; [|discriminate].
  destruct (match m with Val l => head l | _ => None end) as [f|];
    [|cbn; discriminate].
  step; [|discriminate]. step; [|discriminate].
  step; [|discriminate]. step; [|discriminate].
  destruct (baseline_lambdas _ _) as [lambdaHome lambdaAway].
  step; [|discriminate]. destruct p0 as [aisHome aisAway].
  step; [|discriminate].
  unfold ret. intros Heq. simplify_eq. reflexivity.
Qed.

Lemma pick_outcome_cases :
  forall prob : Prob,
    let h := prob_home prob in
    let d := prob_draw prob in
    let a := prob_away prob in
    (pick_outcome prob = AWAY <-> h <= a /\ d <= a)
    /\ (pick_outcome prob = HOME <-> d <= h /\ a < h)
    /\ (pick_outcome prob = DRAW <-> h < d /\ a < d).
Proof.
  intros prob h d a. unfold pick_outcome. fold h d a.
  destruct (Math_max_spec h d) as [[Hhd ->]|[Hhd ->]].
  - destruct (Math_max_spec d a) as [[Hda E]|[Hda E]]; rewrite E.
    + rewrite (proj2 (Qeq_bool_true_iff a a)) by reflexivity.
      repeat split; try discriminate; intros; lra.
    + rewrite (proj2 (Qeq_bool_false_iff a d)) by lra.
      destruct (Qeq_bool h d) eqn:Eh.
      * apply Qeq_bool_true_iff in Eh.
        repeat split; try discriminate; intros; lra.
      * apply Qeq_bool_false_iff in Eh.
        repeat split; try discriminate; intros; lra.
  - destruct (Math_max_spec h a) as [[Hha E]|[Hha E]]; rewrite E.
    + rewrite (proj2 (Qeq_bool_true_iff a a)) by reflexivity.
      repeat split; try discriminate; intros; lra.
    + rewrite (proj2 (Qeq_bool_false_iff a h)) by lra.
      rewrite (proj2 (Qeq_bool_true_iff h h)) by reflexivity.
      repeat split; try discriminate; intros; lra.
Qed.

(** C5. The pick of a prediction follows the overwrite order of the source,
    DRAW, then HOME if home is the maximum, then AWAY if away is the maximum:
    it is AWAY exactly when away is a maximum of the three percentages, HOME
    exactly when home is a maximum and away is not, DRAW otherwise.  So when
    home and away are equal and maximal the pick is AWAY. *)
Theorem pick_overwrite_order :
  forall (R : Runtime) (up : Upstream) (fixtureId : string) (tH tA tsH tsA : Z)
         (w w' : World) (p : Prediction),
    predict_handler up fixtureId tH tA tsH tsA w = (Json p, w') ->
    let h := prob_home (pr_prob p) in
    let d := prob_draw (pr_prob p) in
    let a := prob_away (pr_prob p) in
    let conf := Math_max (Math_max h d) a in
    pr_pick p = (if Qeq_bool a conf then AWAY
                 else if Qeq_bool h conf then HOME else DRAW)
    /\ (pr_pick p = AWAY <-> h <= a /\ d <= a)
    /\ (pr_pick p = HOME <-> d <= h /\ a < h)
    /\ (pr_pick p = DRAW <-> h < d /\ a < d)
    /\ (h == a -> d <= h -> pr_pick p = AWAY).
Proof.
  intros R up fixtureId tH tA tsH tsA w w' p Hrun h d a conf.
  rewrite (predict_handler_pick R up fixtureId tH tA tsH tsA w w' p Hrun).
  destruct (pick_outcome_cases (pr_prob p)) as (Haway & Hhome & Hdraw).
  fold h d a in Haway, Hhome, Hdraw.
  split.
  - unfold pick_outcome. fold h d a conf.
    destruct (Qeq_bool a conf), (Qeq_bool h conf); reflexivity.
  - split; [exact Haway|]. split; [exact Hhome|]. split; [exact Hdraw|].
    intros Heq Hle. apply Haway. lra.
Qed.

(** Home and away level at 37.8 %, the draw at 24.3 %: the pick is AWAY. *)
Example pick_outcome_level :
  pick_outcome {| prob_home := 378 # 10; prob_draw := 243 # 10;
                  prob_away := 378 # 10;
                  prob_lambdaHome := 15 # 10; prob_lambdaAway := 15 # 10;
                  prob_ais_home := 0; prob_ais_away := 0 |} = AWAY.
Proof. reflexivity. Qed.

(** What one of the four averages reads as, [Number(field) || fallback]: the
    fallback when the field (or the whole statistics object) is missing, when
    it is not a number, and when it is zero (or [null], whose number is 0);
    the field's number otherwise. *)
Definition reads {R : Runtime} (H : maybe TeamStats) (field : TeamStats -> prim)
  (fallback v : Q) : Prop :=
  (stat H field = PUndefined /\ v = fallback)
  \/ (Number_of_prim (stat H field) = None /\ v = fallback)
  \/ (exists q, Number_of_prim (stat H field) = Some q /\ q == 0 /\ v = fallback)
  \/ (exists q, Number_of_prim (stat H field) = Some q /\ ~ q == 0 /\ v = q).

Lemma reads_option_or :
  forall (R : Runtime) H field fallback v,
    reads H field fallback v ->
    option_or (Number_of_prim (stat H field)) fallback = v.
Proof.
  intros R H field fallback v
    [[-> ->]|[[-> ->]|[(q & -> & Hq & ->)|(q & -> & Hq & ->)]]];
    cbn; try reflexivity; unfold truthy, truthy_Q.
  - apply Qeq_bool_true_iff in Hq. now rewrite Hq.
  - apply Qeq_bool_false_iff in Hq. now rewrite Hq.
Qed.

(** Every field has a reading, whatever the provider sent. *)
Lemma reads_total :
  forall (R : Runtime) H field fallback, exists v, reads H field fallback v.
Proof.
  intros R H field fallback.
  destruct (Number_of_prim (stat H field)) as [q|] eqn:E.
  - destruct (Qeq_bool q 0) eqn:Eq.
    + exists fallback. right. right. left. exists q.
      apply Qeq_bool_true_iff in Eq. auto.
    + exists q. right. right. right. exists q.
      apply Qeq_bool_false_iff in Eq. auto.
  - exists fallback. right. left. auto.
Qed.

Definition scenario_home : maybe TeamStats :=
  Val {| goals_for_average_home := PNum 2; goals_against_average_home := PNum 1;
         goals_for_average_away := PUndefined;
         goals_against_average_away := PUndefined |}.
Definition scenario_away : maybe TeamStats :=
  Val {| goals_for_average_home := PUndefined;
         goals_against_average_home := PUndefined;
         goals_for_average_away := PNum 1; goals_against_average_away := PNum 1 |}.

(** A home side that has not scored at home yet: the average is there, and it
    is 0. *)
Definition goalless_home : maybe TeamStats :=
  Val {| goals_for_average_home := PNum 0; goals_against_average_home := PNum 1;
         goals_for_average_away := PUndefined;
         goals_against_average_away := PUndefined |}.

(** C6, counterexample: the home goals-for average is present and is 0, the
    away goals-against average is 1.  [Number(0) || 1.2] is 1.2, so lambdaHome
    is (1.2 + 1) / 2 = 1.1 and not (0 + 1) / 2 = 0.5: the fallback is not
    only for a missing field. *)
Lemma baseline_lambdas_zero_average :
  stat goalless_home goals_for_average_home = PNum 0
  /\ stat scenario_away goals_against_average_away = PNum 1
  /\ fst (baseline_lambdas (R := Reference.runtime) goalless_home scenario_away)
     == 11 # 10
  /\ ~ fst (baseline_lambdas (R := Reference.runtime) goalless_home scenario_away)
       == (0 + 1) / 2.
Proof.
  split; [reflexivity|]. split; [reflexivity|]. split; [reflexivity|].
  cbn. discriminate.
Qed.

(** C6 (amended). The baseline expected goals are
    [lambdaHome = (hGF + aGA) / 2] and [lambdaAway = (aGF + hGA) / 2], where
    each average is the field's number when that is a non-zero number, and
    its fallback when the field is missing, is not a number or is zero: 1.2
    for home goals-for, 1.0 for home goals-against, 1.1 for away goals-for
    and 1.1 for away goals-against.  Every field has such a reading, so
    nothing fails, also with no statistics at all.  Home averages 2.0 / 1.0
    and away averages 1.0 / 1.0 with zero injuries give lambdaHome 1.5 and
    lambdaAway 1.0. *)
Theorem baseline_lambdas_fallbacks :
  forall (R : Runtime),
    (forall (H A : maybe TeamStats) (hGF hGA aGF aGA : Q),
        reads H goals_for_average_home (12 # 10) hGF ->
        reads H goals_against_average_home 1 hGA ->
        reads A goals_for_average_away (11 # 10) aGF ->
        reads A goals_against_average_away (11 # 10) aGA ->
        baseline_lambdas H A = ((hGF + aGA) / 2, (aGF + hGA) / 2))
    /\ (forall (H A : maybe TeamStats),
           exists hGF hGA aGF aGA,
             reads H goals_for_average_home (12 # 10) hGF
             /\ reads H goals_against_average_home 1 hGA
             /\ reads A goals_for_average_away (11 # 10) aGF
             /\ reads A goals_against_average_away (11 # 10) aGA)
    /\ baseline_lambdas Undefined Undefined
       = (((12 # 10) + (11 # 10)) / 2, ((11 # 10) + 1) / 2)
    /\ (let '(lambdaHome, lambdaAway) := baseline_lambdas scenario_home scenario_away in
        let aisHome := imp None in
        let aisAway := imp None in
        lambdaHome == 15 # 10 /\ lambdaAway == 1
        /\ Math_max (1 # 10) (lambdaHome * (1 - aisHome)) == 15 # 10
        /\ Math_max (1 # 10) (lambdaAway * (1 - aisAway)) == 1).
Proof.
  intros R. split; [|split; [|split]].
  - intros H A hGF hGA aGF aGA H1 H2 H3 H4. unfold baseline_lambdas.
    rewrite (reads_option_or R _ _ _ _ H1), (reads_option_or R _ _ _ _ H2),
      (reads_option_or R _ _ _ _ H3), (reads_option_or R _ _ _ _ H4).
    reflexivity.
  - intros H A.
    destruct (reads_total R H goals_for_average_home (12 # 10)) as [hGF H1].
    destruct (reads_total R H goals_against_average_home 1) as [hGA H2].
    destruct (reads_total R A goals_for_average_away (11 # 10)) as [aGF H3].
    destruct (reads_total R A goals_against_average_away (11 # 10)) as [aGA H4].
    exists hGF, hGA, aGF, aGA. auto.
  - reflexivity.
  - cbn. repeat split; reflexivity.
Qed.

Lemma baseline_lambdas_fallbacks_witness :
  baseline_lambdas (R := Reference.runtime) goalless_home Null
  = (((12 # 10) + (11 # 10)) / 2, ((11 # 10) + 1) / 2).
Proof.
  apply (proj1 (baseline_lambdas_fallbacks Reference.runtime) goalless_home Null).
  - right. right. left. exists 0. repeat split.
  - right. right. right. exists 1. repeat split. discriminate.
  - left. split; reflexivity.
  - left. split; reflexivity.
Defined.

(** *** Failures of the upstream calls of a prediction *)

Lemma getCacheM_returns :
  forall (T : Type) (x : member T) (k : string) (ttl now : Z) (w : World),
    exists v w', getCacheM x k ttl now w = (Ret v, w').
Proof.
  intros T x k ttl now w. unfold getCacheM.
  destruct (getCache (view x (caches w)) k ttl now). eauto.
Qed.

Lemma getCacheM_miss :
  forall (T : Type) (x : member T) (k : string) (ttl now : Z) (w : World),
    view x (caches w) !! k = None ->
    getCacheM x k ttl now w
    = (Ret Null, {| caches := update x (caches w) (view x (caches w));
                    calls := calls w |}).
Proof.
  intros T x k ttl now w Hk. unfold getCacheM, getCache. now rewrite Hk.
Qed.

Lemma ensure_stats_resolved :
  forall (up : Upstream) (H : maybe TeamStats) (key : string)
         (teamId leagueId season : option Z) (t : Z) (w : World) body,
    statistics_reply up teamId leagueId season = Resolved body ->
    exists H' w', ensure_stats up H key teamId leagueId season t w = (Ret H', w').
Proof.
  intros up H key teamId leagueId season t w body Hreply. unfold ensure_stats.
  destruct (negb (truthy H)); [|unfold ret; eauto].
  unfold bind, await_get, setCacheM, ret. rewrite Hreply. eauto.
Qed.

(** The injuries block never throws; when the call is rejected both impacts
    are zero. *)
Lemma injury_impacts_returns :
  forall (up : Upstream) (f : Fixture) (homeId awayId : option Z) (w : World),
    exists ais w',
      injury_impacts up f homeId awayId w = (Ret ais, w')
      /\ ((forall param, exists st, injuries_reply up param = Rejected st) ->
          ais = (0, 0)).
Proof.
  intros up f homeId awayId w. unfold injury_impacts, try_catch, bind, or_throw.
  destruct (fixture f) as [info|]; cbn.
  - unfold await_get.
    destruct (injuries_reply up (String_of_id (info_id info))) as [st|body] eqn:E; cbn.
    + eexists _, _. split; [reflexivity|]. reflexivity.
    + eexists _, _. split; [reflexivity|].
      intros Hall. destruct (Hall (String_of_id (info_id info))) as [st Hst].
      congruence.
  - eexists _, _. split; reflexivity.
Qed.

Definition first_record (body : maybe (list Fixture)) : option Fixture :=
  match body with Val l => head l | _ => None end.

Lemma toFixed_zero : forall d, toFixed d 0 == 0.
Proof.
  intros d. unfold toFixed. change (Qle_bool 0 0) with true. cbv iota.
  set (s := inject_Z (10 ^ Z.of_nat d)).
  assert (E : 0 * s + (1 # 2) == 1 # 2) by ring.
  rewrite E. change (Qfloor (1 # 2)) with 0%Z.
  unfold Qdiv. change (inject_Z 0) with 0. ring.
Qed.

Ltac step_ret E := rewrite (bind_Ret _ _ _ _ _ _ _ E); cbv beta.
Ltac step_throw E := rewrite (bind_Throw _ _ _ _ _ _ E); cbv beta.

(** When the fixture is found, carries its fixture object, and the provider
    answers the two statistics calls, the predict handler answers with a
    prediction. *)
Lemma predict_handler_answers :
  forall (R : Runtime) (up : Upstream) (fixtureId : string) (tH tA tsH tsA : Z)
         (w : World) body f info bH bA,
    fixtures_reply up (ById fixtureId) = Resolved body ->
    first_record body = Some f ->
    fixture f = Some info ->
    statistics_reply up (teams f ?. home ?. team_id) (league f ?. league_id)
      (league f ?. league_season) = Resolved bH ->
    statistics_reply up (teams f ?. away ?. team_id) (league f ?. league_id)
      (league f ?. league_season) = Resolved bA ->
    exists p w', predict_handler up fixtureId tH tA tsH tsA w = (Json p, w').
Proof.
  intros R up fixtureId tH tA tsH tsA w body f info bH bA Hfx Hsome Hinfo HbH HbA.
  unfold predict_handler, respond. unfold first_record in Hsome.
  assert (E0 : await_get (GetFixtures (ById fixtureId))
                 (fixtures_reply up (ById fixtureId)) w
               = (Ret body, {| caches := caches w;
                               calls := calls w ++ [GetFixtures (ById fixtureId)] |}))
    by (unfold await_get; rewrite Hfx; reflexivity).
  step_ret E0. rewrite Hsome.
  match goal with
  | |- context [bind (getCacheM ?x ?k ?ttl ?now) _ ?w0] =>
      destruct (getCacheM_returns _ x k ttl now w0) as (H0 & w1 & E1)
  end.
  step_ret E1.
  match goal with
  | |- context [bind (getCacheM ?x ?k ?ttl ?now) _ ?w0] =>
      destruct (getCacheM_returns _ x k ttl now w0) as (A0 & w2 & E2)
  end.
  step_ret E2.
  match goal with
  | |- context [bind (ensure_stats up ?H ?k ?t ?l ?s ?ts) _ ?w0] =>
      destruct (ensure_stats_resolved up H k t l s ts w0 bH HbH) as (H1 & w3 & E3)
  end.
  step_ret E3.
  match goal with
  | |- context [bind (ensure_stats up ?H ?k ?t ?l ?s ?ts) _ ?w0] =>
      destruct (ensure_stats_resolved up H k t l s ts w0 bA HbA) as (A1 & w4 & E4)
  end.
  step_ret E4.
  destruct (baseline_lambdas H1 A1) as [lambdaHome lambdaAway].
  match goal with
  | |- context [bind (injury_impacts up f ?h ?a) _ ?w0] =>
      destruct (injury_impacts_returns up f h a w0)
        as ([aisHome aisAway] & w5 & E5 & _)
  end.
  step_ret E5.
  rewrite Hinfo. unfold or_throw, bind, ret. eexists _, _. reflexivity.
Qed.

Lemma pick_overwrite_order_witness :
  exists p w',
    predict_handler (R := Reference.runtime) window_upstream "1" 0 0 0 0 fresh_world
    = (Json p, w')
    /\ (pr_pick p = AWAY <->
        prob_home (pr_prob p) <= prob_away (pr_prob p)
        /\ prob_draw (pr_prob p) <= prob_away (pr_prob p))
    /\ (prob_home (pr_prob p) == prob_away (pr_prob p) ->
        prob_draw (pr_prob p) <= prob_home (pr_prob p) -> pr_pick p = AWAY).
Proof.
  destruct (predict_handler_answers Reference.runtime window_upstream "1" 0 0 0 0
              fresh_world _ _ _ _ _ eq_refl eq_refl eq_refl eq_refl eq_refl)
    as (p & w' & Hrun).
  exists p, w'. split; [exact Hrun|].
  destruct (pick_overwrite_order Reference.runtime window_upstream "1" 0 0 0 0
              fresh_world w' p Hrun) as (_ & Haway & _ & _ & Htie).
  split; [exact Haway|exact Htie].
Defined.

(** The lookup of an entry, spelled out. *)
Lemma getCacheM_run :
  forall (T : Type) (x : member T) (k : string) (ttl now : Z) (w : World),
    getCacheM x k ttl now w
    = (Ret (fst (getCache (view x (caches w)) k ttl now)),
       {| caches := update x (caches w) (snd (getCache (view x (caches w)) k ttl now));
          calls := calls w |}).
Proof.
  intros T x k ttl now w. unfold getCacheM.
  destruct (getCache (view x (caches w)) k ttl now). reflexivity.
Qed.

(** An entry is usable when it is there, not older than the TTL, and holds a
    truthy value (for statistics: a body, not [undefined] or [null]). *)
Definition usable {T} `{Truthy T} (m : gmap string (entry T)) (k : string)
  (ttl now : Z) : Prop :=
  exists h, m !! k = Some h /\ (now - ts h <= ttl)%Z /\ truthy (data h) = true.

Lemma getCache_usable :
  forall (T : Type) (HT : Truthy T) (m : gmap string (entry T)) (k : string)
         (ttl now : Z),
    truthy (fst (getCache m k ttl now)) = true <-> usable m k ttl now.
Proof.
  intros T HT m k ttl now. unfold getCache, usable.
  destruct (m !! k) as [h|].
  - destruct (Z.gtb_spec (now - ts h) ttl) as [Hstale|Hfresh]; cbn [fst].
    + split; [discriminate|]. intros (h' & Hh & Hle & _).
      injection Hh as ->. lia.
    + split.
      * intros Ht. exists h. auto.
      * intros (h' & Hh & _ & Ht). injection Hh as ->. exact Ht.
  - cbn [fst]. split; [discriminate|]. intros (h & Hh & _). discriminate.
Qed.

(** What a second lookup finds after a first one: the first may have evicted
    the entry, when the two keys are the same. *)
Lemma getCache_usable_after :
  forall (T : Type) (HT : Truthy T) (m : gmap string (entry T)) (k k' : string)
         (ttl now now' : Z),
    usable (snd (getCache m k ttl now)) k' ttl now'
    <-> usable m k' ttl now' /\ (k' = k -> usable m k ttl now).
Proof.
  intros T HT m k k' ttl now now'. unfold getCache, usable.
  destruct (decide (k' = k)) as [->|Hne].
  - destruct (m !! k) as [h|] eqn:Ek.
    + destruct (Z.gtb_spec (now - ts h) ttl) as [Hstale|Hfresh]; cbn [snd].
      * rewrite lookup_delete_eq. split.
        -- intros (h' & Hh & _). discriminate.
        -- intros (_ & Hk). destruct (Hk eq_refl) as (h' & Hh & Hle & _).
           injection Hh as ->. lia.
      * rewrite Ek. split.
        -- intros (h' & Hh & Hle & Ht). injection Hh as <-.
           split; [|intros _]; exists h; auto.
        -- intros [Hu _]. exact Hu.
    + cbn [snd]. rewrite Ek. split.
      * intros (h & Hh & _). discriminate.
      * intros [Hu _]. exact Hu.
  - assert (E : snd (match m !! k with
                     | Some h => if (now - ts h >? ttl)%Z then (Null, delete k m)
                                 else (data h, m)
                     | None => (Null, m)
                     end) !! k' = m !! k').
    { destruct (m !! k) as [h|]; [destruct (now - ts h >? ttl)%Z|]; cbn [snd];
        [apply lookup_delete_ne; congruence|reflexivity|reflexivity]. }
    rewrite E. split.
    + intros Hu. split; [exact Hu|]. intros Heq. contradiction.
    + intros [Hu _]. exact Hu.
Qed.

(** The statistics call of a side: made when the lookup gave nothing usable. *)
Definition statistics_call (looked : maybe TeamStats)
  (teamId leagueId season : option Z) : list call :=
  if truthy looked then [] else [GetStatistics teamId leagueId season].

(** The statistics call of a side fails: it is made, and the provider rejects
    it. *)
Definition statistics_fail (up : Upstream) (looked : maybe TeamStats)
  (teamId leagueId season : option Z) : Prop :=
  truthy looked = false
  /\ exists st, statistics_reply up teamId leagueId season = Rejected st.

(** No failure on a side: the cached statistics are used, or the provider
    answers the call. *)
Definition statistics_pass (up : Upstream) (looked : maybe TeamStats)
  (teamId leagueId season : option Z) : Prop :=
  truthy looked = true
  \/ exists body, statistics_reply up teamId leagueId season = Resolved body.

Lemma ensure_stats_pass :
  forall (up : Upstream) (H : maybe TeamStats) (key : string)
         (teamId leagueId season : option Z) (t : Z) (w : World),
    statistics_pass up H teamId leagueId season ->
    exists H' w',
      ensure_stats up H key teamId leagueId season t w = (Ret H', w')
      /\ calls w' = calls w ++ statistics_call H teamId leagueId season.
Proof.
  intros up H key teamId leagueId season t w Hpass.
  unfold ensure_stats, statistics_call.
  destruct (truthy H) eqn:Et; cbn [negb].
  - exists H, w. split; [reflexivity|]. now rewrite app_nil_r.
  - destruct Hpass as [Habs|[body Hreply]]; [congruence|].
    unfold bind, await_get, setCacheM, ret. rewrite Hreply.
    eexists _, _. split; reflexivity.
Qed.

Lemma ensure_stats_fail :
  forall (up : Upstream) (H : maybe TeamStats) (key : string)
         (teamId leagueId season : option Z) (t : Z) (w : World),
    statistics_fail up H teamId leagueId season ->
    exists w',
      ensure_stats up H key teamId leagueId season t w = (Throw, w')
      /\ calls w' = calls w ++ statistics_call H teamId leagueId season.
Proof.
  intros up H key teamId leagueId season t w [Et [st Hreply]].
  unfold ensure_stats, statistics_call. rewrite Et. cbn [negb].
  unfold bind, await_get. rewrite Hreply.
  eexists. split; reflexivity.
Qed.

(** The injuries block: one call when the fixture record carries its fixture
    object, none otherwise (reading [f.fixture.id] throws inside the [try]);
    it never throws, and a rejected call leaves both impacts at zero. *)
Lemma injury_impacts_run :
  forall (up : Upstream) (f : Fixture) (homeId awayId : option Z) (w : World),
    match fixture f with
    | Some info =>
        exists ais w',
          injury_impacts up f homeId awayId w = (Ret ais, w')
          /\ calls w' = calls w ++ [GetInjuries (String_of_id (info_id info))]
          /\ ((exists st, injuries_reply up (String_of_id (info_id info)) = Rejected st)
              -> ais = (0, 0))
    | None => injury_impacts up f homeId awayId w = (Ret (0, 0), w)
    end.
Proof.
  intros up f homeId awayId w. unfold injury_impacts, try_catch, bind, or_throw.
  destruct (fixture f) as [info|]; cbn; [|reflexivity].
  unfold await_get.
  destruct (injuries_reply up (String_of_id (info_id info))) as [st|body] eqn:E; cbn.
  - eexists _, _. split; [reflexivity|]. split; reflexivity.
  - eexists _, _. split; [reflexivity|]. split; [reflexivity|].
    intros [st Hst]. discriminate.
Qed.

(** C1 (amended). In the predict handler the failure of the injuries call is
    absorbed: when the fixture is found, its record carries the fixture
    object and no statistics call that is made is rejected, the handler
    answers with a prediction whatever the injuries call did, with zero
    impact on both sides when it was rejected.  The statistics call of a side
    is made exactly when the lookup gave no usable entry (none, one older
    than 24 hours, one stored without a body), home first, then away.  A
    rejected statistics call, home or away, is not absorbed: the handler
    answers 500 "predict-failed" and makes no further call, as it does when
    the fixture lookup itself is rejected, and when the record has no fixture
    object; a lookup without a record answers 404. *)
Theorem predict_handler_failures :
  forall (R : Runtime) (up : Upstream) (fixtureId : string) (tH tA tsH tsA : Z)
         (w : World),
    let run := predict_handler up fixtureId tH tA tsH tsA w in
    (forall st,
        fixtures_reply up (ById fixtureId) = Rejected st ->
        fst run = Status 500 "predict-failed")
    /\ (forall body,
           fixtures_reply up (ById fixtureId) = Resolved body ->
           first_record body = None ->
           fst run = Status 404 "Fixture non trovata")
    /\ (forall body f,
           fixtures_reply up (ById fixtureId) = Resolved body ->
           first_record body = Some f ->
           let leagueId := league f ?. league_id in
           let season := league f ?. league_season in
           let homeId := teams f ?. home ?. team_id in
           let awayId := teams f ?. away ?. team_id in
           let keyH := stats_key homeId leagueId season in
           let keyA := stats_key awayId leagueId season in
           let day := (24 * 60 * 60 * 1000)%Z in
           let stats := cache_stats (caches w) in
           let H := fst (getCache stats keyH day tH) in
           let A := fst (getCache (snd (getCache stats keyH day tH)) keyA day tA) in
           let asked := calls w ++ [GetFixtures (ById fixtureId)] in
           let callH := statistics_call H homeId leagueId season in
           let callA := statistics_call A awayId leagueId season in
           (truthy H = true <-> usable stats keyH day tH)
           /\ (truthy A = true <->
               usable stats keyA day tA /\ (keyA = keyH -> usable stats keyH day tH))
           /\ (statistics_fail up H homeId leagueId season ->
               exists w',
                 run = (Status 500 "predict-failed", w')
                 /\ calls w' = asked ++ callH)
           /\ (statistics_pass up H homeId leagueId season ->
               statistics_fail up A awayId leagueId season ->
               exists w',
                 run = (Status 500 "predict-failed", w')
                 /\ calls w' = asked ++ callH ++ callA)
           /\ (statistics_pass up H homeId leagueId season ->
               statistics_pass up A awayId leagueId season ->
               match fixture f with
               | Some info =>
                   let param := String_of_id (info_id info) in
                   exists p w',
                     run = (Json p, w')
                     /\ calls w' = asked ++ callH ++ callA ++ [GetInjuries param]
                     /\ ((exists st, injuries_reply up param = Rejected st) ->
                         prob_ais_home (pr_prob p) == 0
                         /\ prob_ais_away (pr_prob p) == 0)
               | None =>
                   exists w',
                     run = (Status 500 "predict-failed", w')
                     /\ calls w' = asked ++ callH ++ callA
               end)).
Proof.
  intros R up fixtureId tH tA tsH tsA w run. subst run.
  split; [|split].
  - intros st Hfx. unfold predict_handler, respond.
    unfold bind at 1, await_get. rewrite Hfx. reflexivity.
  - intros body Hfx Hnone. unfold predict_handler, respond.
    unfold bind at 1, await_get. rewrite Hfx.
    unfold first_record in Hnone. rewrite Hnone. reflexivity.
  - intros body f Hfx Hsome. cbv zeta.
    split; [apply getCache_usable|].
    split; [rewrite getCache_usable; apply getCache_usable_after|].
    unfold first_record in Hsome.
    assert (E0 : await_get (GetFixtures (ById fixtureId))
                   (fixtures_reply up (ById fixtureId)) w
                 = (Ret body, {| caches := caches w;
                                 calls := calls w ++ [GetFixtures (ById fixtureId)] |}))
      by (unfold await_get; rewrite Hfx; reflexivity).
    split; [|split].
    + intros Hfail. unfold predict_handler, respond.
      step_ret E0. rewrite Hsome.
      rewrite (bind_Ret _ _ _ _ _ _ _ (getCacheM_run _ _ _ _ _ _)); cbv beta.
      rewrite (bind_Ret _ _ _ _ _ _ _ (getCacheM_run _ _ _ _ _ _)); cbv beta.
      match goal with
      | |- context [bind (ensure_stats up ?H ?k ?t ?l ?s ?ts) _ ?w0] =>
          destruct (ensure_stats_fail up H k t l s ts w0 Hfail) as (w3 & E3 & Hc3)
      end.
      step_throw E3. eexists. split; [reflexivity|].
      rewrite Hc3. reflexivity.
    + intros Hpass Hfail. unfold predict_handler, respond.
      step_ret E0. rewrite Hsome.
      rewrite (bind_Ret _ _ _ _ _ _ _ (getCacheM_run _ _ _ _ _ _)); cbv beta.
      rewrite (bind_Ret _ _ _ _ _ _ _ (getCacheM_run _ _ _ _ _ _)); cbv beta.
      match goal with
      | |- context [bind (ensure_stats up ?H ?k ?t ?l ?s ?ts) _ ?w0] =>
          destruct (ensure_stats_pass up H k t l s ts w0 Hpass)
            as (H1 & w3 & E3 & Hc3)
      end.
      step_ret E3.
      match goal with
      | |- context [bind (ensure_stats up ?H ?k ?t ?l ?s ?ts) _ ?w0] =>
          destruct (ensure_stats_fail up H k t l s ts w0 Hfail) as (w4 & E4 & Hc4)
      end.
      step_throw E4. eexists. split; [reflexivity|].
      rewrite Hc4, Hc3, <- app_assoc. reflexivity.
    + intros HpassH HpassA. unfold predict_handler, respond.
      step_ret E0. rewrite Hsome.
      rewrite (bind_Ret _ _ _ _ _ _ _ (getCacheM_run _ _ _ _ _ _)); cbv beta.
      rewrite (bind_Ret _ _ _ _ _ _ _ (getCacheM_run _ _ _ _ _ _)); cbv beta.
      match goal with
      | |- context [bind (ensure_stats up ?H ?k ?t ?l ?s ?ts) _ ?w0] =>
          destruct (ensure_stats_pass up H k t l s ts w0 HpassH)
            as (H1 & w3 & E3 & Hc3)
      end.
      step_ret E3.
      match goal with
      | |- context [bind (ensure_stats up ?H ?k ?t ?l ?s ?ts) _ ?w0] =>
          destruct (ensure_stats_pass up H k t l s ts w0 HpassA)
            as (A1 & w4 & E4 & Hc4)
      end.
      step_ret E4.
      destruct (baseline_lambdas H1 A1) as [lambdaHome lambdaAway].
      match goal with
      | |- context [bind (injury_impacts up f ?h ?a) _ ?w0] =>
          pose proof (injury_impacts_run up f h a w0) as Hinj
      end.
      destruct (fixture f) as [info|] eqn:Hinfo.
      * destruct Hinj as ([aisHome aisAway] & w5 & E5 & Hc5 & Hzero).
        step_ret E5. unfold or_throw, bind, ret.
        eexists _, _. split; [reflexivity|]. split.
        -- rewrite Hc5, Hc4, Hc3. cbn [calls]. rewrite <- !app_assoc. reflexivity.
        -- intros Hrej. specialize (Hzero Hrej). injection Hzero as -> ->.
           cbn [pr_prob prob_ais_home prob_ais_away make_prob].
           split; apply toFixed_zero.
      * step_ret Hinj. unfold or_throw, bind, throw.
        eexists. split; [reflexivity|].
        rewrite Hc4, Hc3, <- app_assoc. reflexivity.
Qed.

(** The provider answers the fixture lookup but rejects the statistics call. *)
Definition statistics_down : Upstream :=
  {| fixtures_reply := fixtures_reply window_upstream;
     statistics_reply _ _ _ := Rejected (Some 503%Z);
     injuries_reply := injuries_reply window_upstream;
     lineups_reply := lineups_reply window_upstream |}.

(** The provider rejects the statistics call of the away team (id 20) only. *)
Definition away_statistics_down : Upstream :=
  {| fixtures_reply := fixtures_reply window_upstream;
     statistics_reply teamId leagueId season :=
       match teamId with
       | Some 20%Z => Rejected (Some 503%Z)
       | _ => statistics_reply window_upstream teamId leagueId season
       end;
     injuries_reply := injuries_reply window_upstream;
     lineups_reply := lineups_reply window_upstream |}.

(** The provider rejects the injuries call only. *)
Definition injuries_down : Upstream :=
  {| fixtures_reply := fixtures_reply window_upstream;
     statistics_reply := statistics_reply window_upstream;
     injuries_reply _ := Rejected (Some 503%Z);
     lineups_reply := lineups_reply window_upstream |}.

(** C1, counterexample: the fixture lookup succeeds, the statistics call of
    the home team is rejected, and the caller gets the error 500 instead of a
    prediction. *)
Lemma predict_statistics_failure_surfaces :
  first_record
    match fixtures_reply statistics_down (ById "1") with
    | Resolved body => body
    | Rejected _ => Undefined
    end
  = Some (sample_fixture 1 39 2023 "Premier League" "England")
  /\ fst (predict_handler (R := Reference.runtime) statistics_down "1" 0 0 0 0
            fresh_world)
     = Status 500 "predict-failed"
  /\ ~ exists p,
        fst (predict_handler (R := Reference.runtime) statistics_down "1" 0 0 0 0
               fresh_world)
        = Json p.
Proof.
  split; [reflexivity|].
  assert (H : fst (predict_handler (R := Reference.runtime) statistics_down "1"
                     0 0 0 0 fresh_world)
              = Status 500 "predict-failed") by (vm_compute; reflexivity).
  split; [exact H|]. intros [p Hp]. rewrite H in Hp. discriminate.
Qed.

Lemma predict_handler_failures_witness :
  (exists p w',
      predict_handler (R := Reference.runtime) injuries_down "1" 0 0 0 0 fresh_world
      = (Json p, w')
      /\ prob_ais_home (pr_prob p) == 0 /\ prob_ais_away (pr_prob p) == 0)
  /\ (exists w',
         predict_handler (R := Reference.runtime) statistics_down "1" 0 0 0 0
           fresh_world
         = (Status 500 "predict-failed", w')
         /\ calls w' = [GetFixtures (ById "1");
                        GetStatistics (Some 10%Z) (Some 39%Z) (Some 2023%Z)])
  /\ (exists w',
         predict_handler (R := Reference.runtime) away_statistics_down "1" 0 0 0 0
           fresh_world
         = (Status 500 "predict-failed", w')
         /\ calls w' = [GetFixtures (ById "1");
                        GetStatistics (Some 10%Z) (Some 39%Z) (Some 2023%Z);
                        GetStatistics (Some 20%Z) (Some 39%Z) (Some 2023%Z)]).
Proof.
  split; [|split].
  - destruct (proj2 (proj2
                (predict_handler_failures Reference.runtime injuries_down "1"
                   0 0 0 0 fresh_world))
                (Val [sample_fixture 1 39 2023 "Premier League" "England"])
                (sample_fixture 1 39 2023 "Premier League" "England")
                eq_refl eq_refl) as (_ & _ & _ & _ & Hok).
    destruct (Hok (or_intror (ex_intro _ _ eq_refl))
                  (or_intror (ex_intro _ _ eq_refl)))
      as (p & w' & Hrun & _ & Hzero).
    exists p, w'. split; [exact Hrun|].
    apply Hzero. exists (Some 503%Z). reflexivity.
  - destruct (proj2 (proj2
                (predict_handler_failures Reference.runtime statistics_down "1"
                   0 0 0 0 fresh_world))
                (Val [sample_fixture 1 39 2023 "Premier League" "England"])
                (sample_fixture 1 39 2023 "Premier League" "England")
                eq_refl eq_refl) as (_ & _ & Hhome & _).
    destruct (Hhome (conj eq_refl (ex_intro _ _ eq_refl))) as (w' & Hrun & Hc).
    exists w'. split; [exact Hrun|]. exact Hc.
  - destruct (proj2 (proj2
                (predict_handler_failures Reference.runtime away_statistics_down "1"
                   0 0 0 0 fresh_world))
                (Val [sample_fixture 1 39 2023 "Premier League" "England"])
                (sample_fixture 1 39 2023 "Premier League" "England")
                eq_refl eq_refl) as (_ & _ & _ & Haway & _).
    destruct (Haway (or_intror (ex_intro _ _ eq_refl))
                    (conj eq_refl (ex_intro _ _ eq_refl))) as (w' & Hrun & Hc).
    exists w'. split; [exact Hrun|]. exact Hc.
Defined.

(** *** The Poisson percentages *)

Section Poisson.
Context {R : Runtime}.

Lemma fact_pos : forall n, 0 < fact n.
Proof.
  induction n as [|n IH]; [reflexivity|].
  cbn [fact]. destruct (S n <=? 1)%nat; [reflexivity|].
  apply Qmult_lt_0_compat; [|exact IH].
  unfold Qlt. cbn. lia.
Qed.

Lemma pois_nonneg :
  forall l k, 0 < Math_exp (- l) -> 0 <= l -> 0 <= pois l k.
Proof.
  intros l k Hexp Hl. unfold pois, Qdiv.
  apply Qmult_le_0_compat.
  - apply Qmult_le_0_compat.
    + apply Qlt_le_weak, Hexp.
    + apply Qpower_0_le, Hl.
  - apply Qinv_le_0_compat, Qlt_le_weak, fact_pos.
Qed.

Lemma pois_zero_goals_pos : forall l, 0 < Math_exp (- l) -> 0 < pois l 0.
Proof.
  intros l Hexp. unfold pois, Qdiv. cbn [Z.of_nat Qpower fact].
  assert (E : Math_exp (- l) * 1 * / 1 == Math_exp (- l)) by field.
  rewrite E.
  exact Hexp.
Qed.

Lemma seq_0_11 : seq 0 11 = 0%nat :: seq 1 10.
Proof. reflexivity. Qed.

Lemma fold_left_cons :
  forall (A B : Type) (f : A -> B -> A) (x : B) (l : list B) (a : A),
    fold_left f (x :: l) a = fold_left f l (f a x).
Proof. reflexivity. Qed.

Definition total (b : Buckets) : Q := pH b + pD b + pA b.
Definition nonneg (b : Buckets) : Prop := 0 <= pH b /\ 0 <= pD b /\ 0 <= pA b.

Lemma score_step_grows :
  forall ph lA gh b ga,
    0 <= ph -> 0 < Math_exp (- lA) -> 0 <= lA -> nonneg b ->
    nonneg (score_step ph lA gh b ga)
    /\ total (score_step ph lA gh b ga) == total b + ph * pois lA ga.
Proof.
  intros ph lA gh b ga Hph Hexp HlA (H1 & H2 & H3).
  pose proof (Qmult_le_0_compat _ _ Hph (pois_nonneg lA ga Hexp HlA)) as Hterm.
  unfold score_step, nonneg, total.
  destruct (ga <? gh)%nat; [|destruct (gh =? ga)%nat];
    cbn [pH pD pA]; (split; [repeat split; lra|lra]).
Qed.

Lemma inner_loop_grows :
  forall ph lA gh gas b,
    0 <= ph -> 0 < Math_exp (- lA) -> 0 <= lA -> nonneg b ->
    nonneg (fold_left (score_step ph lA gh) gas b)
    /\ total b <= total (fold_left (score_step ph lA gh) gas b).
Proof.
  intros ph lA gh gas. induction gas as [|ga gas IH]; intros b Hph Hexp HlA Hb.
  - split; [exact Hb|apply Qle_refl].
  - cbn [fold_left].
    destruct (score_step_grows ph lA gh b ga Hph Hexp HlA Hb) as [Hb' Htot].
    destruct (IH _ Hph Hexp HlA Hb') as [Hfin Hle]. split; [exact Hfin|].
    pose proof (Qmult_le_0_compat _ _ Hph (pois_nonneg lA ga Hexp HlA)). lra.
Qed.

Lemma outer_loop_grows :
  forall lH lA ghs b,
    0 < Math_exp (- lH) -> 0 < Math_exp (- lA) -> 0 <= lH -> 0 <= lA -> nonneg b ->
    nonneg (fold_left (home_turn lH lA) ghs b)
    /\ total b <= total (fold_left (home_turn lH lA) ghs b).
Proof.
  intros lH lA ghs. induction ghs as [|gh ghs IH]; intros b HeH HeA HlH HlA Hb.
  - split; [exact Hb|apply Qle_refl].
  - rewrite fold_left_cons.
    assert (Hturn : nonneg (home_turn lH lA b gh)
                    /\ total b <= total (home_turn lH lA b gh)).
    { unfold home_turn, away_loop.
      apply inner_loop_grows;
        [apply pois_nonneg; [exact HeH|exact HlH]|exact HeA|exact HlA|exact Hb]. }
    destruct Hturn as [Hb' Hle'].
    destruct (IH (home_turn lH lA b gh) HeH HeA HlH HlA Hb') as [Hfin Hle].
    split; [exact Hfin|].
    eapply Qle_trans; [exact Hle'|exact Hle].
Qed.

(** After the turn [gh = 0] the sum is already positive: the scoreline 0-0
    has positive probability. *)
Lemma first_turn_positive :
  forall lH lA,
    0 < Math_exp (- lH) -> 0 < Math_exp (- lA) -> 0 <= lH -> 0 <= lA ->
    let b := home_turn lH lA {| pH := 0; pD := 0; pA := 0 |} 0 in
    nonneg b /\ 0 < total b.
Proof.
  intros lH lA HeH HeA HlH HlA. cbv zeta. unfold home_turn, away_loop.
  rewrite seq_0_11, fold_left_cons.
  set (b0 := {| pH := 0; pD := 0; pA := 0 |}).
  assert (Hb0 : nonneg b0) by (repeat split; apply Qle_refl).
  destruct (score_step_grows (pois lH 0) lA 0 b0 0
              (pois_nonneg lH 0 HeH HlH) HeA HlA Hb0) as [Hb1 Htot1].
  destruct (inner_loop_grows (pois lH 0) lA 0 (seq 1 10) _
              (pois_nonneg lH 0 HeH HlH) HeA HlA Hb1) as [Hb2 Hle2].
  split; [exact Hb2|].
  pose proof (Qmult_lt_0_compat _ _ (pois_zero_goals_pos lH HeH)
                (pois_zero_goals_pos lA HeA)) as Hpos.
  assert (Hz : total b0 == 0) by reflexivity.
  revert Htot1 Hle2 Hpos Hz.
  generalize (total (fold_left (score_step (pois lH 0) lA 0) (seq 1 10)
                       (score_step (pois lH 0) lA 0 b0 0))).
  generalize (total (score_step (pois lH 0) lA 0 b0 0)) (total b0)
             (pois lH 0 * pois lA 0).
  intros t1 t0 p t2 Htot1 Hle2 Hpos Hz. lra.
Qed.

(** Where [Math.exp] is positive at both lambdas, the buckets are
    non-negative and their sum is positive. *)
Lemma scorelines_positive :
  forall lH lA,
    0 < Math_exp (- lH) -> 0 < Math_exp (- lA) -> 0 <= lH -> 0 <= lA ->
    nonneg (scorelines lH lA) /\ 0 < total (scorelines lH lA).
Proof.
  intros lH lA HeH HeA HlH HlA. unfold scorelines.
  rewrite seq_0_11, fold_left_cons.
  destruct (first_turn_positive lH lA HeH HeA HlH HlA) as [Hb1 Hpos1].
  destruct (outer_loop_grows lH lA (seq 1 10) _ HeH HeA HlH HlA Hb1) as [Hb2 Hle2].
  split; [exact Hb2|].
  eapply Qlt_le_trans; [exact Hpos1|exact Hle2].
Qed.

(** *** The guard [pH + pD + pA || 1] *)

Definition all_zero (b : Buckets) : Prop := pH b == 0 /\ pD b == 0 /\ pA b == 0.

Lemma score_step_zero :
  forall ph lA gh b ga,
    ph == 0 -> all_zero b -> all_zero (score_step ph lA gh b ga).
Proof.
  intros ph lA gh b ga Hph (H1 & H2 & H3). unfold score_step, all_zero.
  destruct (ga <? gh)%nat; [|destruct (gh =? ga)%nat]; cbn [pH pD pA];
    repeat split; try assumption; rewrite Hph; lra.
Qed.

Lemma away_loop_zero :
  forall ph lA gh gas b,
    ph == 0 -> all_zero b -> all_zero (fold_left (score_step ph lA gh) gas b).
Proof.
  intros ph lA gh gas. induction gas as [|ga gas IH]; intros b Hph Hb.
  - exact Hb.
  - rewrite fold_left_cons. apply IH; [exact Hph|].
    apply score_step_zero; assumption.
Qed.

Lemma home_loop_zero :
  forall lH lA ghs b,
    Math_exp (- lH) == 0 -> all_zero b ->
    all_zero (fold_left (home_turn lH lA) ghs b).
Proof.
  intros lH lA ghs. induction ghs as [|gh ghs IH]; intros b Hexp Hb.
  - exact Hb.
  - rewrite fold_left_cons. apply IH; [exact Hexp|].
    unfold home_turn, away_loop. apply away_loop_zero; [|exact Hb].
    unfold pois, Qdiv. rewrite Hexp. ring.
Qed.

End Poisson.

(** Rounding to one decimal moves a non-negative number by at most 0.05. *)
Lemma toFixed_1_close :
  forall x, 0 <= x -> x - (1 # 20) <= toFixed 1 x <= x + (1 # 20).
Proof.
  intros x Hx. unfold toFixed.
  rewrite (proj2 (Qle_bool_iff 0 x) Hx).
  change (inject_Z (10 ^ Z.of_nat 1)) with (inject_Z 10).
  pose proof (Qfloor_le (x * inject_Z 10 + (1 # 2))) as Hlo.
  pose proof (Qlt_floor (x * inject_Z 10 + (1 # 2))) as Hhi.
  rewrite inject_Z_plus in Hhi.
  set (f := inject_Z (Qfloor (x * inject_Z 10 + (1 # 2)))) in *.
  change (inject_Z 10) with (10 # 1) in *. change (inject_Z 1) with 1 in *.
  assert (Hdiv : f / (10 # 1) == f * (1 # 10)) by (field).
  rewrite Hdiv. split; lra.
Qed.

(** [toFixed] gives equal results on equal numbers. *)
Lemma toFixed_Qeq : forall d x y, x == y -> toFixed d x = toFixed d y.
Proof.
  intros d x y E. unfold toFixed.
  rewrite (Qleb_comp 0 0 (Qeq_refl 0) x y E).
  assert (E1 : x * inject_Z (10 ^ Z.of_nat d) + (1 # 2)
               == y * inject_Z (10 ^ Z.of_nat d) + (1 # 2)) by (rewrite E; reflexivity).
  assert (E2 : - x * inject_Z (10 ^ Z.of_nat d) + (1 # 2)
               == - y * inject_Z (10 ^ Z.of_nat d) + (1 # 2)) by (rewrite E; reflexivity).
  rewrite (Qfloor_comp _ _ E1), (Qfloor_comp _ _ E2). reflexivity.
Qed.

(** Three non-negative shares of a positive total, as rounded percentages. *)
Lemma rounded_shares_close_to_100 :
  forall x y z : Q,
    0 <= x -> 0 <= y -> 0 <= z -> 0 < x + y + z ->
    Qabs (toFixed 1 (x / (x + y + z) * 100) + toFixed 1 (y / (x + y + z) * 100)
          + toFixed 1 (z / (x + y + z) * 100) - 100) <= 15 # 100.
Proof.
  intros x y z Hx Hy Hz Htot.
  assert (Hinv : 0 < / (x + y + z)) by (apply Qinv_lt_0_compat, Htot).
  assert (Hshare : forall v, 0 <= v -> 0 <= v / (x + y + z) * 100).
  { intros v Hv. unfold Qdiv. apply Qmult_le_0_compat; [|discriminate].
    apply Qmult_le_0_compat; [exact Hv|apply Qlt_le_weak, Hinv]. }
  assert (Hsum : x / (x + y + z) * 100 + y / (x + y + z) * 100
                 + z / (x + y + z) * 100 == 100).
  { field. intros H0. rewrite H0 in Htot. discriminate. }
  pose proof (toFixed_1_close _ (Hshare x Hx)) as Hh.
  pose proof (toFixed_1_close _ (Hshare y Hy)) as Hd.
  pose proof (toFixed_1_close _ (Hshare z Hz)) as Ha.
  revert Hsum Hh Hd Ha.
  generalize (toFixed 1 (x / (x + y + z) * 100))
             (toFixed 1 (y / (x + y + z) * 100))
             (toFixed 1 (z / (x + y + z) * 100)).
  generalize (x / (x + y + z) * 100) (y / (x + y + z) * 100)
             (z / (x + y + z) * 100).
  intros u v w ru rv rw Hsum Hh Hd Ha.
  apply Qabs_Qle_condition. split; lra.
Qed.

(** When [Math.exp(-lambdaHome)] is zero every product of the enumeration is
    zero, the guard replaces the zero sum by 1, and all three percentages are
    0. *)
Lemma make_prob_zero :
  forall (R : Runtime) (lambdaHome lambdaAway aisHome aisAway : Q),
    Math_exp (- lambdaHome) == 0 ->
    let prob := make_prob lambdaHome lambdaAway aisHome aisAway in
    prob_home prob == 0 /\ prob_draw prob == 0 /\ prob_away prob == 0.
Proof.
  intros R lH lA aH aA Hexp prob.
  assert (Hzero : all_zero (scorelines lH lA)).
  { unfold scorelines. apply home_loop_zero; [exact Hexp|].
    repeat split; reflexivity. }
  subst prob. unfold make_prob. cbn [prob_home prob_draw prob_away].
  revert Hzero. generalize (scorelines lH lA). intros b (H1 & H2 & H3).
  assert (Hs : truthy (pH b + pD b + pA b) = false).
  { unfold truthy, truthy_Q.
    rewrite (proj2 (Qeq_bool_true_iff (pH b + pD b + pA b) 0)); [reflexivity|].
    rewrite H1, H2, H3. reflexivity. }
  rewrite Hs.
  assert (E : forall v, v == 0 -> toFixed 1 (v / 1 * 100) == 0).
  { intros v Hv. rewrite (toFixed_Qeq 1 (v / 1 * 100) 0).
    - apply toFixed_zero.
    - rewrite Hv. reflexivity. }
  repeat split; apply E; assumption.
Qed.

(** The reference exponential is positive. *)
Lemma exp_series_ge_1 : forall n k y, 0 <= y -> 1 <= Reference.exp_series n k y.
Proof.
  induction n as [|n IH]; intros k y Hy; cbn [Reference.exp_series].
  - apply Qle_refl.
  - specialize (IH (Pos.succ k) y Hy).
    assert (0 <= y * (1 # k)) by (apply Qmult_le_0_compat; [exact Hy|discriminate]).
    assert (0 <= y * (1 # k) * Reference.exp_series n (Pos.succ k) y)
      by (apply Qmult_le_0_compat; lra).
    lra.
Qed.

Lemma Reference_Math_exp_pos : forall x, 0 < Reference.Math_exp x.
Proof.
  intros x. unfold Reference.Math_exp.
  destruct (Qle_bool 0 x) eqn:E; rewrite Qred_correct.
  - apply Qle_bool_iff in E. pose proof (exp_series_ge_1 4 1 x E). lra.
  - assert (Hlt : x < 0).
    { apply Qnot_le_lt. intros H. apply Qle_bool_iff in H. congruence. }
    assert (Hneg : 0 <= - x) by lra.
    pose proof (exp_series_ge_1 4 1 (- x) Hneg).
    apply Qinv_lt_0_compat. lra.
Qed.

(** A runtime whose exponential underflows to zero below -745, as that of
    IEEE doubles does; otherwise the reference runtime. *)
Definition underflowing_runtime : Runtime :=
  Build_Runtime Reference.Date_parse Reference.Date_toISOString
    Reference.Number_of_string Reference.String_of_number Reference.localeCompare
    (fun x => if Qle_bool (- (745 # 1)) x then Reference.Math_exp x else 0).

(** C9, counterexample: the lambdas 800 and 800 are positive, but
    [Math.exp(-800)] is 0 in doubles; every bucket is 0, the guard [|| 1]
    divides by 1, and the three percentages are 0, 0 and 0: they add up to 0,
    not to 100. *)
Lemma percentages_vanish_at_800 :
  let prob := make_prob (R := underflowing_runtime) (800 # 1) (800 # 1) 0 0 in
  0 < 800 # 1
  /\ Math_exp (Runtime := underflowing_runtime) (- (800 # 1)) == 0
  /\ prob_home prob + prob_draw prob + prob_away prob == 0
  /\ ~ Qabs (prob_home prob + prob_draw prob + prob_away prob - 100) <= 3 # 10.
Proof.
  cbv zeta.
  pose proof (make_prob_zero underflowing_runtime (800 # 1) (800 # 1) 0 0
                ltac:(reflexivity)) as Hz.
  cbv zeta in Hz. revert Hz.
  generalize (make_prob (R := underflowing_runtime) (800 # 1) (800 # 1) 0 0).
  intros prob. generalize (prob_home prob) (prob_draw prob) (prob_away prob).
  intros h d a (Hh & Hd & Ha).
  split; [reflexivity|]. split; [reflexivity|]. split; [lra|].
  intros Habs. apply Qabs_Qle_condition in Habs. lra.
Qed.

(** C9 (amended). For lambdas in (0, 100], and a [Math.exp] that is positive
    on [-100, 0] as that of doubles is, the three percentages (the buckets of
    the enumeration over 0..10 goals a side, normalised by their sum and
    rounded to one decimal each) add up to 100 within 0.3.  The arithmetic of
    the enumeration is taken as exact. *)
Theorem percentages_sum_to_100 :
  forall (R : Runtime) (lambdaHome lambdaAway aisHome aisAway : Q),
    (forall x, - (100 # 1) <= x <= 0 -> 0 < Math_exp x) ->
    0 < lambdaHome <= 100 # 1 -> 0 < lambdaAway <= 100 # 1 ->
    let prob := make_prob lambdaHome lambdaAway aisHome aisAway in
    Qabs (prob_home prob + prob_draw prob + prob_away prob - 100) <= 3 # 10.
Proof.
  intros R lH lA aH aA Hexp [HlH HuH] [HlA HuA] prob.
  assert (HeH : 0 < Math_exp (- lH)) by (apply Hexp; split; lra).
  assert (HeA : 0 < Math_exp (- lA)) by (apply Hexp; split; lra).
  destruct (scorelines_positive lH lA HeH HeA (Qlt_le_weak _ _ HlH)
              (Qlt_le_weak _ _ HlA)) as [(H1 & H2 & H3) Htot].
  subst prob. unfold make_prob. cbn [prob_home prob_draw prob_away].
  unfold total in Htot. revert H1 H2 H3 Htot.
  generalize (scorelines lH lA). intros b H1 H2 H3 Htot.
  assert (Hs : truthy (pH b + pD b + pA b) = true).
  { unfold truthy, truthy_Q.
    rewrite (proj2 (Qeq_bool_false_iff (pH b + pD b + pA b) 0)); [reflexivity|].
    intros H0. rewrite H0 in Htot. discriminate. }
  rewrite Hs.
  eapply Qle_trans; [apply rounded_shares_close_to_100; assumption|discriminate].
Qed.

Lemma percentages_sum_to_100_witness :
  let prob := make_prob (R := Reference.runtime) (15 # 10) 1 0 0 in
  Qabs (prob_home prob + prob_draw prob + prob_away prob - 100) <= 3 # 10.
Proof.
  assert (Hexp : forall x, - (100 # 1) <= x <= 0 -> 0 < Reference.Math_exp x)
    by (intros x _; apply Reference_Math_exp_pos).
  assert (HlH : 0 < 15 # 10 <= 100 # 1) by (split; [reflexivity|discriminate]).
  assert (HlA : 0 < 1 <= 100 # 1) by (split; [reflexivity|discriminate]).
  exact (percentages_sum_to_100 Reference.runtime (15 # 10) 1 0 0 Hexp HlH HlA).
Defined.

Close Scope Q_scope.

(** ** Leagues of the day *)

(** *** The key [lid + "_" + season] determines the pair *)

Definition numeric_char (c : Ascii.ascii) : bool :=
  let n := Ascii.nat_of_ascii c in
  ((48 <=? n)%nat && (n <=? 57)%nat) || (n =? 45)%nat.

Fixpoint numeric (s : string) : bool :=
  match s with
  | EmptyString => true
  | String c s' => numeric_char c && numeric s'
  end.

Lemma pretty_N_char_numeric : forall x, numeric_char (pretty_N_char x) = true.
Proof.
  intros x. unfold pretty_N_char. repeat case_match; reflexivity.
Qed.

Lemma pretty_N_go_numeric :
  forall x s, numeric s = true -> numeric (pretty_N_go x s) = true.
Proof.
  intros x. induction (N.lt_wf_0 x) as [x _ IH]. intros s Hs.
  destruct (N.eq_dec x 0%N) as [->|Hx].
  - rewrite pretty_N_go_0. exact Hs.
  - rewrite pretty_N_go_step by lia. apply IH.
    + apply N.div_lt; lia.
    + cbn [numeric]. rewrite pretty_N_char_numeric. exact Hs.
Qed.

Lemma pretty_Z_numeric : forall z : Z, numeric (pretty z) = true.
Proof.
  assert (HN : forall n : N, numeric (pretty n) = true).
  { intros n. unfold pretty, pretty_N. case_decide; [reflexivity|].
    apply pretty_N_go_numeric. reflexivity. }
  intros [|p|p]; unfold pretty, pretty_Z; [reflexivity|apply HN|].
  change (numeric (String "-" (pretty (N.pos p))) = true).
  cbn [numeric]. rewrite (HN (N.pos p)). reflexivity.
Qed.

Lemma underscore_split :
  forall s1 s2 t1 t2 : string,
    numeric s1 = true -> numeric s2 = true ->
    s1 +:+ "_" +:+ t1 = s2 +:+ "_" +:+ t2 -> s1 = s2 /\ t1 = t2.
Proof.
  induction s1 as [|c s1 IH]; intros [|d s2] t1 t2 H1 H2 Heq.
  - change (String "_" t1 = String "_" t2) in Heq.
    injection Heq as Heq. subst. split; reflexivity.
  - change (String "_" t1 = String d (s2 +:+ "_" +:+ t2)) in Heq.
    injection Heq as Hd _. subst d. discriminate H2.
  - change (String c (s1 +:+ "_" +:+ t1) = String "_" t2) in Heq.
    injection Heq as Hc _. subst c. discriminate H1.
  - change (String c (s1 +:+ "_" +:+ t1) = String d (s2 +:+ "_" +:+ t2)) in Heq.
    injection Heq as Hc Heq. subst d.
    cbn [numeric] in H1, H2.
    apply andb_prop in H1 as [_ H1]. apply andb_prop in H2 as [_ H2].
    destruct (IH s2 t1 t2 H1 H2 Heq) as [-> ->]. split; reflexivity.
Qed.

Lemma String_of_id_inj :
  forall a b : option Z, String_of_id a = String_of_id b -> a = b.
Proof.
  intros [a|] [b|] Heq; cbn in Heq.
  - f_equal. apply (inj pretty). exact Heq.
  - pose proof (pretty_Z_numeric a) as H. rewrite Heq in H. discriminate.
  - pose proof (pretty_Z_numeric b) as H. rewrite <- Heq in H. discriminate.
  - reflexivity.
Qed.

Lemma league_key_inj :
  forall l1 l2 s1 s2,
    league_key l1 s1 = league_key l2 s2 -> l1 = l2 /\ s1 = s2.
Proof.
  intros l1 l2 s1 s2 Heq. unfold league_key in Heq.
  apply underscore_split in Heq as [Hl Hs]; try apply pretty_Z_numeric.
  split; [apply (inj pretty); exact Hl|apply String_of_id_inj; exact Hs].
Qed.

(** *** The grouping loop *)

(** The summary a fixture contributes, if its league id is truthy. *)
Definition summary_of (f : Fixture) : option LeagueSummary :=
  match league f ?. league_id with
  | Some l =>
      if truthy l
      then Some {| ls_id := l; ls_name := league f ?. league_name;
                   ls_country := league f ?. league_country;
                   ls_season := league f ?. league_season |}
      else None
  | None => None
  end.

Definition key_of (v : LeagueSummary) : string :=
  league_key (ls_id v) (ls_season v).

Definition group_of (v : LeagueSummary) : Z * option Z := (ls_id v, ls_season v).

Lemma key_of_group : forall v v', key_of v = key_of v' <-> group_of v = group_of v'.
Proof.
  intros v v'. unfold key_of, group_of. split.
  - intros H. apply league_key_inj in H as [-> ->]. reflexivity.
  - intros H. injection H as -> ->. reflexivity.
Qed.

Lemma omap_has_In :
  forall (V : Type) (m : list (string * V)) (k : string),
    omap_has m k = true <-> List.In k (List.map fst m).
Proof.
  intros V m k. unfold omap_has. rewrite existsb_exists, in_map_iff. split.
  - intros (kv & Hin & Heq). apply String.eqb_eq in Heq. eauto.
  - intros (kv & Heq & Hin). exists kv. split; [exact Hin|].
    apply String.eqb_eq. exact Heq.
Qed.

Lemma leagues_step_summary :
  forall m f,
    leagues_step m f
    = match summary_of f with
      | None => m
      | Some v => if omap_has m (key_of v) then m else m ++ [(key_of v, v)]
      end.
Proof.
  intros m f. unfold leagues_step, summary_of.
  destruct (league f ?. league_id) as [l|]; [|reflexivity].
  destruct (truthy l); cbn [negb]; [|reflexivity].
  unfold key_of. cbn [ls_id ls_season]. unfold omap_set.
  destruct (omap_has m (league_key l (league f ?. league_season))); reflexivity.
Qed.

(** What the loop has established after the fixtures [seen]. *)
Record grouped (m : list (string * LeagueSummary)) (seen : list Fixture) : Prop := {
  grouped_keys : forall k v, List.In (k, v) m -> k = key_of v;
  grouped_nodup : List.NoDup (List.map fst m);
  grouped_first :
    forall k v, List.In (k, v) m ->
      exists pre f post,
        seen = pre ++ f :: post /\ summary_of f = Some v
        /\ forall g v', List.In g pre -> summary_of g = Some v' ->
                        group_of v' <> group_of v;
  grouped_all :
    forall f v, List.In f seen -> summary_of f = Some v ->
      List.In (key_of v) (List.map fst m)
}.

Lemma NoDup_snoc :
  forall (A : Type) (l : list A) (x : A),
    List.NoDup l -> ~ List.In x l -> List.NoDup (l ++ [x]).
Proof.
  intros A l x Hl Hx. induction Hl as [|y l Hy Hl IH]; cbn.
  - constructor; [intros []|constructor].
  - constructor.
    + rewrite in_app_iff. intros [H|[H|[]]]; [contradiction|]. subst. apply Hx. now left.
    + apply IH. intros H. apply Hx. now right.
Qed.

Lemma grouped_step :
  forall m seen f, grouped m seen -> grouped (leagues_step m f) (seen ++ [f]).
Proof.
  intros m seen f [Hkeys Hnodup Hfirst Hall]. rewrite leagues_step_summary.
  assert (Hfirst' : forall k v, List.In (k, v) m ->
            exists pre g post,
              seen ++ [f] = pre ++ g :: post /\ summary_of g = Some v
              /\ forall g0 v', List.In g0 pre -> summary_of g0 = Some v' ->
                               group_of v' <> group_of v).
  { intros k v Hin. destruct (Hfirst k v Hin) as (pre & g & post & -> & Hg & Hpre).
    exists pre, g, (post ++ [f]). split; [|split; assumption].
    rewrite <- app_assoc. reflexivity. }
  destruct (summary_of f) as [v|] eqn:Hf.
  - destruct (omap_has m (key_of v)) eqn:Hhas.
    + constructor; try assumption.
      intros g v' Hg Hv'. apply in_app_iff in Hg as [Hg|[<-|[]]].
      * eapply Hall; eassumption.
      * rewrite Hf in Hv'. injection Hv' as <-. apply omap_has_In. exact Hhas.
    + assert (Hfresh : ~ List.In (key_of v) (List.map fst m)).
      { intros H. apply omap_has_In in H. congruence. }
      constructor.
      * intros k v' Hin. apply in_app_iff in Hin as [Hin|[Heq|[]]].
        -- eapply Hkeys; eassumption.
        -- injection Heq as <- <-. reflexivity.
      * rewrite List.map_app. apply NoDup_snoc; assumption.
      * intros k v' Hin. apply in_app_iff in Hin as [Hin|[Heq|[]]].
        -- eapply Hfirst'; eassumption.
        -- injection Heq as <- <-. exists seen, f, []. split; [reflexivity|].
           split; [exact Hf|]. intros g v' Hg Hv' Hsame.
           apply Hfresh. apply key_of_group in Hsame. rewrite <- Hsame.
           eapply Hall; eassumption.
      * intros g v' Hg Hv'. rewrite List.map_app, in_app_iff.
        apply in_app_iff in Hg as [Hg|[<-|[]]].
        -- left. eapply Hall; eassumption.
        -- rewrite Hf in Hv'. injection Hv' as <-. right. now left.
  - constructor; try assumption.
    intros g v' Hg Hv'. apply in_app_iff in Hg as [Hg|[<-|[]]].
    + eapply Hall; eassumption.
    + congruence.
Qed.

Lemma grouped_fold :
  forall fixtures m seen,
    grouped m seen -> grouped (fold_left leagues_step fixtures m) (seen ++ fixtures).
Proof.
  induction fixtures as [|f fixtures IH]; intros m seen Hm; cbn [fold_left].
  - rewrite app_nil_r. exact Hm.
  - replace (seen ++ f :: fixtures) with ((seen ++ [f]) ++ fixtures)
      by (rewrite <- app_assoc; reflexivity).
    apply IH, grouped_step, Hm.
Qed.

Lemma leagues_map_grouped : forall fixtures, grouped (leagues_map fixtures) fixtures.
Proof.
  intros fixtures. unfold leagues_map.
  apply (grouped_fold fixtures [] []). constructor.
  - intros k v [].
  - constructor.
  - intros k v [].
  - intros f v [].
Qed.

(** *** The sort *)

Section SortFacts.
Context {A : Type} (cmp : A -> A -> Z).
Hypothesis cmp_total : forall a b, 0 < cmp a b -> cmp b a <= 0.

Definition before (a b : A) : Prop := cmp a b <= 0.

Lemma sort_insert_perm : forall x l, Permutation (sort_insert cmp x l) (x :: l).
Proof.
  intros x l. induction l as [|y l IH]; cbn [sort_insert].
  - apply Permutation_refl.
  - destruct (cmp x y <=? 0); [apply Permutation_refl|].
    eapply Permutation_trans; [apply perm_skip, IH|apply perm_swap].
Qed.

Lemma Array_sort_perm : forall l, Permutation (Array_sort cmp l) l.
Proof.
  induction l as [|x l IH]; cbn [Array_sort]; [apply Permutation_refl|].
  eapply Permutation_trans; [apply sort_insert_perm|apply perm_skip, IH].
Qed.

Lemma sort_insert_sorted :
  forall x l, Sorted before l -> Sorted before (sort_insert cmp x l).
Proof.
  intros x l Hl. induction Hl as [|y l Hl IH Hhd]; cbn [sort_insert].
  - repeat constructor.
  - destruct (Z.leb_spec (cmp x y) 0) as [Hle|Hgt].
    + constructor; [constructor; assumption|constructor; exact Hle].
    + constructor; [exact IH|].
      destruct l as [|z l]; cbn [sort_insert].
      * constructor. apply cmp_total, Hgt.
      * destruct (cmp x z <=? 0).
        -- constructor. apply cmp_total, Hgt.
        -- constructor. inversion Hhd; assumption.
Qed.

Lemma Array_sort_sorted : forall l, Sorted before (Array_sort cmp l).
Proof.
  induction l as [|x l IH]; cbn [Array_sort]; [constructor|].
  apply sort_insert_sorted, IH.
Qed.

End SortFacts.

(** The order the claim speaks of: by country, then by name, a missing or
    empty field counting as the empty string. *)
Definition league_le {R : Runtime} (a b : LeagueSummary) : Prop :=
  let ca := option_or (ls_country a) "" in
  let cb := option_or (ls_country b) "" in
  let na := option_or (ls_name a) "" in
  let nb := option_or (ls_name b) "" in
  localeCompare ca cb < 0 \/ (localeCompare ca cb = 0 /\ localeCompare na nb <= 0).

Lemma compare_leagues_le :
  forall (R : Runtime) a b, compare_leagues a b <= 0 <-> league_le a b.
Proof.
  intros R a b. unfold compare_leagues, league_le, num_or, truthy, truthy_Z.
  cbv zeta.
  destruct (Z.eqb_spec (localeCompare (option_or (ls_country a) "")
                          (option_or (ls_country b) "")) 0) as [->|Hne];
    cbn [negb]; lia.
Qed.

Lemma compare_leagues_total :
  forall (R : Runtime),
    (forall s t, Z.sgn (localeCompare t s) = - Z.sgn (localeCompare s t)) ->
    forall a b, 0 < compare_leagues a b -> compare_leagues b a <= 0.
Proof.
  intros R Hanti a b. unfold compare_leagues, num_or, truthy, truthy_Z.
  pose proof (Hanti (option_or (ls_country a) "") (option_or (ls_country b) "")) as Hc.
  pose proof (Hanti (option_or (ls_name a) "") (option_or (ls_name b) "")) as Hn.
  destruct (Z.eqb_spec (localeCompare (option_or (ls_country a) "")
                          (option_or (ls_country b) "")) 0) as [E|E];
    destruct (Z.eqb_spec (localeCompare (option_or (ls_country b) "")
                            (option_or (ls_country a) "")) 0) as [E'|E'];
    cbn [negb]; lia.
Qed.

(** C7. The leagues of a day, for a [localeCompare] that is antisymmetric:
    one league per pair (league id, season); each carries the name and the
    country of the first fixture of that pair in the day's list, and every
    fixture with a league id is represented; the list is non-decreasing by
    country and then by name, a missing country counting as the empty string
    (so it comes before every country the empty string comes before). *)
Theorem buildLeaguesForDay_dedup_sorted :
  forall (R : Runtime),
    (forall s t, Z.sgn (localeCompare t s) = - Z.sgn (localeCompare s t)) ->
    forall fixtures : list Fixture,
      let out := buildLeaguesForDay fixtures in
      List.NoDup (List.map group_of out)
      /\ (forall l, List.In l out ->
            exists pre f post,
              fixtures = pre ++ f :: post /\ summary_of f = Some l
              /\ forall g l', List.In g pre -> summary_of g = Some l' ->
                              group_of l' <> group_of l)
      /\ (forall f l, List.In f fixtures -> summary_of f = Some l ->
            exists l', List.In l' out /\ group_of l' = group_of l)
      /\ Sorted league_le out
      /\ (forall a b c,
            ls_country a = None -> ls_country b = Some c -> c <> "" ->
            localeCompare "" c < 0 -> league_le a b).
Proof.
  intros R Hanti fixtures out.
  destruct (leagues_map_grouped fixtures) as [Hkeys Hnodup Hfirst Hall].
  pose proof (Array_sort_perm compare_leagues (omap_values (leagues_map fixtures)))
    as Hperm. fold (buildLeaguesForDay fixtures) in Hperm. fold out in Hperm.
  assert (Hin : forall l, List.In l out ->
                          List.In (key_of l, l) (leagues_map fixtures)).
  { intros l Hl. apply (Permutation_in _ Hperm) in Hl.
    unfold omap_values in Hl. apply in_map_iff in Hl as ([k v] & Heq & Hkv).
    cbn in Heq. subst v. rewrite <- (Hkeys k l Hkv). exact Hkv. }
  split; [|split; [|split; [|split]]].
  - apply (Permutation_NoDup (l := List.map group_of (omap_values (leagues_map fixtures)))).
    { apply Permutation_map, Permutation_sym, Hperm. }
    unfold omap_values. clear Hperm Hin Hfirst Hall.
    induction (leagues_map fixtures) as [|[k v] m IH]; cbn; [constructor|].
    inversion Hnodup as [|k' m' Hk Hm]; subst.
    constructor.
    + intros Hdup. apply Hk. apply in_map_iff in Hdup as (v' & Hsame & Hv').
      apply in_map_iff in Hv' as ([k2 v2] & Heq & Hkv). cbn in Heq. subst v2.
      apply in_map_iff. exists (k2, v'). split; [|exact Hkv]. cbn.
      rewrite (Hkeys k2 v') by (right; exact Hkv).
      rewrite (Hkeys k v) by (left; reflexivity).
      apply key_of_group. exact Hsame.
    + apply IH; [|exact Hm]. intros k2 v2 H2. apply Hkeys. right. exact H2.
  - intros l Hl. exact (Hfirst _ _ (Hin l Hl)).
  - intros f l Hf Hsum. pose proof (Hall f l Hf Hsum) as Hk.
    apply in_map_iff in Hk as ([k v] & Heq & Hkv). cbn in Heq. subst k.
    exists v. split.
    + apply (Permutation_in _ (Permutation_sym Hperm)).
      unfold omap_values. apply in_map_iff. exists (key_of l, v). split; [reflexivity|exact Hkv].
    + apply key_of_group. symmetry. apply (Hkeys _ _ Hkv).
  - pose proof (Array_sort_sorted compare_leagues (compare_leagues_total R Hanti)
                  (omap_values (leagues_map fixtures))) as Hs.
    fold (buildLeaguesForDay fixtures) in Hs. fold out in Hs.
    clear - Hs. induction Hs as [|a l Hl IH Hhd]; constructor; [exact IH|].
    destruct Hhd as [|b l Hab]; constructor.
    apply compare_leagues_le. exact Hab.
  - intros a b c Ha Hb Hc Hlt. unfold league_le. rewrite Ha, Hb. cbv zeta.
    left. destruct c as [|c0 c']; [contradiction|exact Hlt].
Qed.

Lemma Reference_localeCompare_antisym :
  forall s t, Z.sgn (Reference.localeCompare t s) = - Z.sgn (Reference.localeCompare s t).
Proof.
  intros s t. unfold Reference.localeCompare.
  rewrite (String.compare_antisym s t).
  destruct (String.compare t s); reflexivity.
Qed.

Lemma buildLeaguesForDay_dedup_sorted_witness :
  let out := buildLeaguesForDay (R := Reference.runtime) three_fixtures in
  List.NoDup (List.map group_of out) /\ Sorted (league_le (R := Reference.runtime)) out.
Proof.
  pose proof (buildLeaguesForDay_dedup_sorted Reference.runtime
                Reference_localeCompare_antisym three_fixtures) as H.
  cbv zeta in H. destruct H as (Hnodup & _ & _ & Hsorted & _).
  split; [exact Hnodup|exact Hsorted].
Defined.

(* ===================================================================== *)
(** * Further properties of the code *)
(* ===================================================================== *)

(** ** Freshness cache *)

(** A [setCache] on one key does not change what [getCache] returns for
    another key, and the two commute on the map. *)
Theorem getCache_setCache_other_key :
  forall (T : Type) (m : gmap string (entry T)) (k k' : string) (d : maybe T)
         (t0 ttl now : Z),
    k <> k' ->
    fst (getCache (setCache m k d t0) k' ttl now) = fst (getCache m k' ttl now)
    /\ snd (getCache (setCache m k d t0) k' ttl now)
       = setCache (snd (getCache m k' ttl now)) k d t0.
Proof.
  intros T m k k' d t0 ttl now Hne. unfold getCache, setCache.
  rewrite lookup_insert_ne by exact Hne.
  destruct (m !! k') as [h|]; [|split; reflexivity].
  destruct (now - ts h >? ttl); cbn [fst snd]; split; try reflexivity.
  apply delete_insert_ne. congruence.
Qed.

Lemma getCache_setCache_other_key_witness :
  fst (getCache (setCache (setCache (∅ : gmap string (entry bool)) "7" (Val false) 0)
                   "8" (Val true) 5) "7" (ttl_of Lineups) 10)
  = Val false.
Proof.
  rewrite (proj1 (getCache_setCache_other_key bool _ "8" "7" (Val true) 5
                    (ttl_of Lineups) 10 ltac:(discriminate))).
  reflexivity.
Defined.

(** The last write wins, and it restarts the clock of the entry: after two
    [setCache] on a key, [getCache] returns the second value as long as the
    second write is fresh, whatever the age of the first. *)
Theorem setCache_last_write_wins :
  forall (T : Type) (m : gmap string (entry T)) (k : string) (d1 d2 : maybe T)
         (t1 t2 ttl now : Z),
    setCache (setCache m k d1 t1) k d2 t2 = setCache m k d2 t2
    /\ (now - t2 <= ttl ->
        fst (getCache (setCache (setCache m k d1 t1) k d2 t2) k ttl now) = d2).
Proof.
  intros T m k d1 d2 t1 t2 ttl now. unfold setCache.
  rewrite insert_insert_eq. split; [reflexivity|].
  intros Hfresh. unfold getCache. rewrite lookup_insert_eq. cbn [ts data].
  destruct (Z.gtb_spec (now - t2) ttl); [lia|reflexivity].
Qed.

Lemma setCache_last_write_wins_witness :
  fst (getCache (setCache (setCache (∅ : gmap string (entry bool)) "7" (Val false) 0)
                   "7" (Val true) 5000000) "7" (ttl_of Lineups) 6000000)
  = Val true.
Proof.
  apply (proj2 (setCache_last_write_wins bool ∅ "7" (Val false) (Val true)
                  0 5000000 (ttl_of Lineups) 6000000)).
  vm_compute. discriminate.
Defined.

(** [getCache] never adds an entry and never touches another key: the map it
    leaves is the old one, or the old one without the key looked up; the key
    is removed exactly when its entry was there and stale. *)
Theorem getCache_only_evicts :
  forall (T : Type) (m : gmap string (entry T)) (k : string) (ttl now : Z),
    let m' := snd (getCache m k ttl now) in
    (forall k', k' <> k -> m' !! k' = m !! k')
    /\ (m' !! k = None \/ m' !! k = m !! k)
    /\ (m' !! k = None <->
        m !! k = None \/ exists h, m !! k = Some h /\ ttl < now - ts h).
Proof.
  intros T m k ttl now. cbv zeta. unfold getCache.
  destruct (m !! k) as [h|] eqn:Hk.
  - destruct (Z.gtb_spec (now - ts h) ttl) as [Hold|Hfresh]; cbn [snd].
    + split; [intros k' Hne; apply lookup_delete_ne; congruence|].
      split; [left; apply lookup_delete_eq|].
      rewrite lookup_delete_eq. split; [|reflexivity].
      intros _. right. exists h. split; [reflexivity|exact Hold].
    + split; [reflexivity|]. split; [right; exact Hk|].
      rewrite Hk. split; [discriminate|].
      intros [H|(h' & Hh' & Hold)]; [discriminate|].
      injection Hh' as <-. lia.
  - cbn [snd]. split; [reflexivity|]. split; [left; exact Hk|].
    rewrite Hk. split; [left; reflexivity|reflexivity].
Qed.

(** ** Fixture aggregator *)

(** [fetchFixturesForDay] returns, leaves the caches alone, and issues the
    exact-date call first, followed by at most one range call. *)
Lemma fetchFixturesForDay_world :
  forall (R : Runtime) (up : Upstream) (day : string) (w : World),
    exists fixtures l,
      fetchFixturesForDay up day w = (Ret fixtures, logged w l)
      /\ (l = [GetFixtures (ByDate day)]
          \/ exists from to,
               l = [GetFixtures (ByDate day); GetFixtures (ByRange from to)]).
Proof.
  intros R up day w.
  unfold fetchFixturesForDay, try_catch, bind, await_get, ret, isoDay, or_throw,
    logged.
  destruct (fixtures_reply up (ByDate day)) as [st|body]; cbn.
  - destruct (day_before _) as [b|]; cbn; [|eauto 6].
    destruct (Date_toISOString b); cbn; [|eauto 6].
    destruct (day_after _) as [a|]; cbn; [|eauto 6].
    destruct (Date_toISOString a); cbn; [|eauto 6].
    destruct (fixtures_reply up _); cbn; rewrite <- app_assoc; eauto 8.
  - destruct (or_default body []) as [|f fs]; cbn; [|eauto 6].
    destruct (day_before _) as [b|]; cbn; [|eauto 6].
    destruct (Date_toISOString b); cbn; [|eauto 6].
    destruct (day_after _) as [a|]; cbn; [|eauto 6].
    destruct (Date_toISOString a); cbn; [|eauto 6].
    destruct (fixtures_reply up _); cbn; rewrite <- app_assoc; eauto 8.
Qed.

(** A day string that is not a date: [new Date(...)] is invalid,
    [toISOString] throws inside the second [try], so the range call is never
    issued and the function returns what the exact-date call contributed. *)
Theorem fetchFixturesForDay_invalid_day :
  forall (R : Runtime) (up : Upstream) (day : string) (w : World),
    Date_parse (day +:+ "T00:00:00Z") = None ->
    fetchFixturesForDay up day w
    = (Ret (records_of (fixtures_reply up (ByDate day))),
       logged w [GetFixtures (ByDate day)]).
Proof.
  intros R up day w Hd.
  unfold fetchFixturesForDay, try_catch, bind, await_get, ret, isoDay, or_throw,
    logged, records_of.
  rewrite Hd.
  destruct (fixtures_reply up (ByDate day)) as [st|body]; cbn; [reflexivity|].
  destruct (or_default body []) as [|f fs]; reflexivity.
Qed.

Lemma fetchFixturesForDay_invalid_day_witness :
  fetchFixturesForDay (R := Reference.runtime) window_upstream "tomorrow" fresh_world
  = (Ret [], logged fresh_world [GetFixtures (ByDate "tomorrow")]).
Proof.
  apply (fetchFixturesForDay_invalid_day Reference.runtime window_upstream
           "tomorrow" fresh_world).
  reflexivity.
Defined.

(** *** The handlers built on it *)

(** The leagues, day and details handlers never answer with an error status,
    whatever the provider does and whatever the caches hold: every upstream
    failure on their paths is caught where it happens. *)
Theorem handlers_never_fail :
  forall (R : Runtime) (up : Upstream) (w : World),
    (forall day t_get t_set,
        exists p, fst (leagues_handler up day t_get t_set w) = Json p)
    /\ (forall day league t_get t_set,
           exists p, fst (day_handler up day league t_get t_set w) = Json p)
    /\ (forall id t1 t2 t3 t4,
           exists p, fst (details_handler up id t1 t2 t3 t4 w) = Json p).
Proof.
  intros R up w. split; [|split].
  - intros day t_get t_set. unfold leagues_handler.
    destruct (getCacheM leagues_cache _ _ t_get w) as [[[| |hit]|] w'];
      try (eexists; reflexivity);
      unfold respond, bind;
      destruct (fetchFixturesForDay_world R up day w') as (fx & l & -> & _);
      eexists; reflexivity.
  - intros day league t_get t_set. unfold day_handler.
    destruct (getCacheM day_cache _ _ t_get w) as [[[| |hit]|] w'];
      try (eexists; reflexivity);
      unfold respond, bind;
      destruct (fetchFixturesForDay_world R up day w') as (fx & l & -> & _);
      eexists; reflexivity.
  - intros id t1 t2 t3 t4. unfold details_handler, respond.
    destruct (getCacheM_returns _ injuries_cache id (30 * 60 * 1000) t1 w)
      as (cInj & w1 & E1).
    step_ret E1.
    destruct (getCacheM_returns _ lineups_cache id (30 * 60 * 1000) t2 w1)
      as (cLin & w2 & E2).
    step_ret E2.
    destruct (truthy cInj && negb (is_undefined cLin)); [eexists; reflexivity|].
    unfold bind, try_catch, await_get, setCacheM, ret.
    destruct (injuries_reply up id), (lineups_reply up id); eexists; reflexivity.
Qed.

(** A hit: the entry is there and fresh. *)
Lemma getCacheM_hit :
  forall (T : Type) (x : member T) (k : string) (ttl now : Z) (w : World)
         (h : entry T),
    view x (caches w) !! k = Some h ->
    now - ts h <= ttl ->
    getCacheM x k ttl now w
    = (Ret (data h), {| caches := update x (caches w) (view x (caches w));
                        calls := calls w |}).
Proof.
  intros T x k ttl now w h Hk Hfresh. unfold getCacheM, getCache. rewrite Hk.
  destruct (Z.gtb_spec (now - ts h) ttl); [lia|reflexivity].
Qed.

(** After a leagues request that had to fetch, a request for the same day
    whose cache read comes at most 15 minutes after the write is answered
    with the same body, without any upstream call and without touching the
    caches, whatever the provider would answer by then. *)
Theorem leagues_handler_served_from_cache :
  forall (R : Runtime) (up up' : Upstream) (day : string)
         (t_get t_set t_get' t_set' : Z) (w : World),
    cache_leagues (caches w) !! ("L_" +:+ day) = None ->
    t_get' - t_set <= 15 * 60 * 1000 ->
    leagues_handler up' day t_get' t_set'
      (snd (leagues_handler up day t_get t_set w))
    = leagues_handler up day t_get t_set w.
Proof.
  intros R up up' day t_get t_set t_get' t_set' w Hmiss Hfresh.
  unfold leagues_handler at 2 3.
  rewrite (getCacheM_miss _ leagues_cache _ _ t_get w Hmiss).
  unfold respond, bind, setCacheM, ret.
  match goal with
  | |- context [fetchFixturesForDay up day ?w0] =>
      destruct (fetchFixturesForDay_world R up day w0) as (fx & l & -> & _)
  end.
  cbn [snd fst]. unfold leagues_handler.
  erewrite getCacheM_hit;
    [|cbn; apply lookup_insert_eq|cbn [ts]; exact Hfresh].
  reflexivity.
Qed.

Lemma leagues_handler_served_from_cache_witness :
  leagues_handler (R := Reference.runtime) statistics_down "2024-05-01" 600000 600001
    (snd (leagues_handler (R := Reference.runtime) window_upstream "2024-05-01" 0 1
            fresh_world))
  = leagues_handler (R := Reference.runtime) window_upstream "2024-05-01" 0 1 fresh_world.
Proof.
  apply (leagues_handler_served_from_cache Reference.runtime window_upstream
           statistics_down "2024-05-01" 0 1 600000 600001 fresh_world).
  - reflexivity.
  - vm_compute. discriminate.
Defined.

(** The same for the matches of a day, filtered or not: the key carries the
    league filter, and a hit within 10 minutes is served as stored. *)
Theorem day_handler_served_from_cache :
  forall (R : Runtime) (up up' : Upstream) (day : string) (league : option string)
         (t_get t_set t_get' t_set' : Z) (w : World),
    cache_day (caches w) !! day_key day (parse_leagueId league) = None ->
    t_get' - t_set <= 10 * 60 * 1000 ->
    day_handler up' day league t_get' t_set'
      (snd (day_handler up day league t_get t_set w))
    = day_handler up day league t_get t_set w.
Proof.
  intros R up up' day league t_get t_set t_get' t_set' w Hmiss Hfresh.
  unfold day_handler at 2 3.
  rewrite (getCacheM_miss _ day_cache _ _ t_get w Hmiss).
  unfold respond, bind, setCacheM, ret.
  match goal with
  | |- context [fetchFixturesForDay up day ?w0] =>
      destruct (fetchFixturesForDay_world R up day w0) as (fx & l & -> & _)
  end.
  cbn [snd fst]. unfold day_handler.
  erewrite getCacheM_hit;
    [|cbn; apply lookup_insert_eq|cbn [ts]; exact Hfresh].
  reflexivity.
Qed.

Lemma day_handler_served_from_cache_witness :
  day_handler (R := Reference.runtime) statistics_down "2024-05-01" (Some "39")
    300000 300001
    (snd (day_handler (R := Reference.runtime) window_upstream "2024-05-01" (Some "39")
            0 1 fresh_world))
  = day_handler (R := Reference.runtime) window_upstream "2024-05-01" (Some "39") 0 1
      fresh_world.
Proof.
  apply (day_handler_served_from_cache Reference.runtime window_upstream
           statistics_down "2024-05-01" (Some "39") 0 1 300000 300001 fresh_world).
  - reflexivity.
  - vm_compute. discriminate.
Defined.

(** What [fetchFixturesForDay] returns does not depend on the world it runs
    in. *)
Lemma fetchFixturesForDay_value :
  forall (R : Runtime) (up : Upstream) (day : string) (w w' : World),
    fst (fetchFixturesForDay up day w) = fst (fetchFixturesForDay up day w').
Proof.
  intros R up day w w'.
  unfold fetchFixturesForDay, try_catch, bind, await_get, ret, isoDay, or_throw.
  destruct (fixtures_reply up (ByDate day)) as [st|body]; cbn.
  - destruct (day_before _) as [b|]; cbn; [|reflexivity].
    destruct (Date_toISOString b); cbn; [|reflexivity].
    destruct (day_after _) as [a|]; cbn; [|reflexivity].
    destruct (Date_toISOString a); cbn; [|reflexivity].
    destruct (fixtures_reply up _); reflexivity.
  - destruct (or_default body []) as [|f fs]; cbn; [|reflexivity].
    destruct (day_before _) as [b|]; cbn; [|reflexivity].
    destruct (Date_toISOString b); cbn; [|reflexivity].
    destruct (day_after _) as [a|]; cbn; [|reflexivity].
    destruct (Date_toISOString a); cbn; [|reflexivity].
    destruct (fixtures_reply up _); reflexivity.
Qed.

(** A request with a league filter that had to fetch: every match returned is
    of that league, the matches are the day's fixtures of that league in the
    provider's order, and [meta.leagueFilter] is the number. *)
Theorem day_handler_filters_league :
  forall (R : Runtime) (up : Upstream) (day q : string) (n : Q)
         (t_get t_set : Z) (w : World),
    q <> "" ->
    Number_of_string q = Some n ->
    ~ (n == 0)%Q ->
    cache_day (caches w) !! day_key day (Val (Some n)) = None ->
    exists p fixtures,
      fst (day_handler up day (Some q) t_get t_set w) = Json p
      /\ fst (fetchFixturesForDay up day w) = Ret fixtures
      /\ dp_date p = day
      /\ dp_leagueFilter p = Some n
      /\ dp_matches p
         = map day_entry
             (List.filter
                (fun f => num_strict_eq (Number_of_id (league f ?. league_id)) (Some n))
                fixtures)
      /\ forall e, List.In e (dp_matches p) ->
           exists z, match_leagueId (de_match e) = Some z /\ (inject_Z z == n)%Q.
Proof.
  intros R up day q n t_get t_set w Hq Hn Hnz Hmiss.
  assert (Hparse : parse_leagueId (Some q) = Val (Some n)).
  { unfold parse_leagueId. destruct q as [|c q']; [contradiction|].
    cbn. rewrite Hn. reflexivity. }
  assert (Htruthy : truthy (Val (Some n) : maybe (option Q)) = true).
  { change (negb (Qeq_bool n 0) = true).
    apply Qeq_bool_false_iff in Hnz. now rewrite Hnz. }
  unfold day_handler. rewrite Hparse.
  rewrite (getCacheM_miss _ day_cache _ _ t_get w Hmiss).
  unfold respond, bind, setCacheM, ret.
  match goal with
  | |- context [fetchFixturesForDay up day ?w0] =>
      rewrite (fetchFixturesForDay_value R up day w w0);
      destruct (fetchFixturesForDay_world R up day w0) as (fx & l & -> & _)
  end.
  cbn [fst].
  unfold filter_league, leagueFilter_of. rewrite Htruthy.
  eexists _, fx. split; [reflexivity|]. split; [reflexivity|].
  cbn [dp_date dp_leagueFilter dp_matches].
  split; [reflexivity|]. split; [reflexivity|]. split; [reflexivity|].
  intros e He. apply in_map_iff in He as (f & <- & Hf).
  apply filter_In in Hf as [_ Hf]. cbn [day_entry de_match match_leagueId].
  destruct (league f ?. league_id) as [z|]; [|discriminate].
  exists z. split; [reflexivity|]. apply Qeq_bool_iff. exact Hf.
Qed.

Lemma day_handler_filters_league_witness :
  exists p,
    fst (day_handler (R := Reference.runtime) window_upstream "2024-05-01" (Some "39")
           0 1 fresh_world) = Json p
    /\ dp_leagueFilter p = Some (inject_Z 39)
    /\ length (dp_matches p) = 2%nat.
Proof.
  destruct (day_handler_filters_league Reference.runtime window_upstream
              "2024-05-01" "39" (inject_Z 39) 0 1 fresh_world
              ltac:(discriminate) eq_refl ltac:(discriminate) eq_refl)
    as (p & fx & Hp & Hfx & _ & Hfilter & Hmatches & _).
  exists p. split; [exact Hp|]. split; [exact Hfilter|].
  rewrite Hmatches.
  assert (Hrun : fst (fetchFixturesForDay (R := Reference.runtime) window_upstream
                        "2024-05-01" fresh_world) = Ret three_fixtures)
    by reflexivity.
  rewrite Hrun in Hfx. injection Hfx as <-. reflexivity.
Defined.

(** ** Fixture detail enrichment *)

Lemma caches_eta :
  forall c : Caches,
    {| cache_day := cache_day c; cache_leagues := cache_leagues c;
       cache_injuries := cache_injuries c; cache_lineups := cache_lineups c;
       cache_stats := cache_stats c |} = c.
Proof. intros []. reflexivity. Qed.

Lemma world_eta : forall w : World, {| caches := caches w; calls := calls w |} = w.
Proof. intros []. reflexivity. Qed.

(** What each of the two calls of the details handler contributes; a rejected
    call degrades to the empty default. *)
Definition injuries_or_default (r : reply (list Injury)) : list Injury :=
  match r with Resolved body => or_default body [] | Rejected _ => [] end.

Definition lineups_confirmed (r : reply (list Lineup)) : bool :=
  match r with
  | Resolved body => (0 <? length (or_default body []))%nat
  | Rejected _ => false
  end.

(** The fetch path, spelled out: the handler takes it whenever the injuries
    lookup misses. *)
Lemma details_handler_fetch :
  forall (up : Upstream) (id : string) (t1 t2 t3 t4 : Z) (w : World),
    cache_injuries (caches w) !! id = None ->
    details_handler up id t1 t2 t3 t4 w
    = (Json {| d_injuries := Val (injuries_or_default (injuries_reply up id));
               d_lineupsConfirmed := Val (lineups_confirmed (lineups_reply up id)) |},
       {| caches :=
            {| cache_day := cache_day (caches w);
               cache_leagues := cache_leagues (caches w);
               cache_injuries :=
                 setCache (cache_injuries (caches w)) id
                   (Val (injuries_or_default (injuries_reply up id))) t3;
               cache_lineups :=
                 setCache (snd (getCache (cache_lineups (caches w)) id
                                  (30 * 60 * 1000) t2)) id
                   (Val (lineups_confirmed (lineups_reply up id))) t4;
               cache_stats := cache_stats (caches w) |};
          calls := calls w ++ [GetInjuries id; GetLineups id] |}).
Proof.
  intros up id t1 t2 t3 t4 w Hmiss.
  unfold details_handler, respond.
  rewrite (bind_Ret _ _ _ _ _ _ _
             (getCacheM_miss _ injuries_cache id (30 * 60 * 1000) t1 w Hmiss)).
  cbv beta. unfold bind at 1, getCacheM.
  cbn [view update injuries_cache lineups_cache caches calls cache_lineups].
  destruct (getCache (cache_lineups (caches w)) id (30 * 60 * 1000) t2)
    as [cLin m2].
  cbn [truthy truthy_maybe andb snd].
  unfold bind, try_catch, await_get, setCacheM, ret,
    injuries_or_default, lineups_confirmed.
  destruct (injuries_reply up id), (lineups_reply up id); cbn;
    rewrite <- app_assoc; reflexivity.
Qed.

(** The hit path: both entries present and fresh. *)
Lemma details_handler_hit :
  forall (up : Upstream) (id : string) (t1 t2 t3 t4 : Z) (w : World)
         (hi : entry (list Injury)) (hl : entry bool) (inj : list Injury),
    cache_injuries (caches w) !! id = Some hi ->
    t1 - ts hi <= 30 * 60 * 1000 ->
    data hi = Val inj ->
    cache_lineups (caches w) !! id = Some hl ->
    t2 - ts hl <= 30 * 60 * 1000 ->
    is_undefined (data hl) = false ->
    details_handler up id t1 t2 t3 t4 w
    = (Json {| d_injuries := Val inj; d_lineupsConfirmed := data hl |}, w).
Proof.
  intros up id t1 t2 t3 t4 w hi hl inj Hi Hfi Hdi Hl Hfl Hdl.
  unfold details_handler, respond.
  rewrite (bind_Ret _ _ _ _ _ _ _
             (getCacheM_hit _ injuries_cache id _ t1 w hi Hi Hfi)).
  cbv beta.
  erewrite bind_Ret;
    [|apply (getCacheM_hit _ lineups_cache id _ t2 _ hl); [exact Hl|exact Hfl]].
  rewrite Hdi, Hdl. cbn. rewrite caches_eta, world_eta. reflexivity.
Qed.

(** On an injuries miss the two upstream calls are made, each failure
    degrades only its own field ([[]] for injuries, [false] for lineups), and
    both results are cached under the fixture id with the time of their
    write, whatever the other call did. *)
Theorem details_handler_fetch_path :
  forall (up : Upstream) (id : string) (t1 t2 t3 t4 : Z) (w : World),
    cache_injuries (caches w) !! id = None ->
    let run := details_handler up id t1 t2 t3 t4 w in
    let injuries := injuries_or_default (injuries_reply up id) in
    let confirmed := lineups_confirmed (lineups_reply up id) in
    fst run = Json {| d_injuries := Val injuries;
                      d_lineupsConfirmed := Val confirmed |}
    /\ cache_injuries (caches (snd run)) !! id = Some (Entry t3 (Val injuries))
    /\ cache_lineups (caches (snd run)) !! id = Some (Entry t4 (Val confirmed))
    /\ calls (snd run) = calls w ++ [GetInjuries id; GetLineups id]
    /\ ((exists st, injuries_reply up id = Rejected st) -> injuries = [])
    /\ ((exists st, lineups_reply up id = Rejected st) -> confirmed = false).
Proof.
  intros up id t1 t2 t3 t4 w Hmiss run injuries confirmed. subst run.
  rewrite (details_handler_fetch up id t1 t2 t3 t4 w Hmiss).
  cbn [fst snd caches calls cache_injuries cache_lineups]. unfold setCache.
  rewrite !lookup_insert_eq. repeat split.
  - intros [st Hst]. subst injuries. rewrite Hst. reflexivity.
  - intros [st Hst]. subst confirmed. rewrite Hst. reflexivity.
Qed.

Lemma details_handler_fetch_path_witness :
  fst (details_handler injuries_down "1" 0 0 0 0 fresh_world)
  = Json {| d_injuries := Val []; d_lineupsConfirmed := Val true |}.
Proof.
  apply (details_handler_fetch_path injuries_down "1" 0 0 0 0 fresh_world).
  reflexivity.
Defined.

(** After a details request that had to fetch, a request for the same
    fixture whose two cache reads come at most 30 minutes after the two
    writes is answered with the same body, with no upstream call and no
    change to the caches. *)
Theorem details_handler_served_from_cache :
  forall (up up' : Upstream) (id : string) (t1 t2 t3 t4 t1' t2' t3' t4' : Z)
         (w : World),
    cache_injuries (caches w) !! id = None ->
    t1' - t3 <= 30 * 60 * 1000 ->
    t2' - t4 <= 30 * 60 * 1000 ->
    details_handler up' id t1' t2' t3' t4'
      (snd (details_handler up id t1 t2 t3 t4 w))
    = details_handler up id t1 t2 t3 t4 w.
Proof.
  intros up up' id t1 t2 t3 t4 t1' t2' t3' t4' w Hmiss Hf1 Hf2.
  rewrite (details_handler_fetch up id t1 t2 t3 t4 w Hmiss). cbn [snd].
  rewrite (details_handler_hit up' id t1' t2' t3' t4' _
             (Entry t3 (Val (injuries_or_default (injuries_reply up id))))
             (Entry t4 (Val (lineups_confirmed (lineups_reply up id))))
             (injuries_or_default (injuries_reply up id))).
  - reflexivity.
  - cbn. apply lookup_insert_eq.
  - exact Hf1.
  - reflexivity.
  - cbn. apply lookup_insert_eq.
  - exact Hf2.
  - reflexivity.
Qed.

Lemma details_handler_served_from_cache_witness :
  details_handler statistics_down "1" 1000 1000 1000 1000
    (snd (details_handler window_upstream "1" 0 0 0 0 fresh_world))
  = details_handler window_upstream "1" 0 0 0 0 fresh_world.
Proof.
  apply (details_handler_served_from_cache window_upstream statistics_down "1"
           0 0 0 0 1000 1000 1000 1000 fresh_world).
  - reflexivity.
  - vm_compute. discriminate.
  - vm_compute. discriminate.
Defined.

(** ** Prediction engine: the arithmetic *)

Open Scope Q_scope.

(** The recursive helper [fact] computes the factorial, for every argument
    up to 22 (the enumeration passes 0..10); up to there the products are
    also exact in doubles. *)
Theorem fact_is_factorial :
  forall n : nat, (n <= 22)%nat -> fact n == inject_Z (Z.of_nat (Factorial.fact n)).
Proof.
  intros n _. induction n as [|n IH]; [reflexivity|].
  cbn [fact]. destruct n as [|n].
  - reflexivity.
  - change (S (S n) <=? 1)%nat with false. cbv iota. rewrite IH.
    change (Factorial.fact (S (S n)))
      with (S (S n) * Factorial.fact (S n))%nat.
    rewrite Nat2Z.inj_mul, inject_Z_mult. reflexivity.
Qed.

Lemma fact_is_factorial_witness : fact 5 == inject_Z 120.
Proof.
  assert (H : (5 <= 22)%nat) by lia.
  exact (fact_is_factorial 5 H).
Defined.

Lemma pow10_pos : forall d : nat, 0 < inject_Z (10 ^ Z.of_nat d).
Proof.
  intros d. change 0 with (inject_Z 0). rewrite <- Zlt_Qlt.
  apply Z.pow_pos_nonneg; lia.
Qed.

(** Rounding [y] to a multiple of [1/s]. *)
Lemma round_close :
  forall s y : Q,
    0 < s ->
    y - (1 # 2) / s <= inject_Z (Qfloor (y * s + (1 # 2))) / s <= y + (1 # 2) / s.
Proof.
  intros s y Hs.
  pose proof (Qfloor_le (y * s + (1 # 2))) as Hlo.
  pose proof (Qlt_floor (y * s + (1 # 2))) as Hhi.
  rewrite inject_Z_plus in Hhi. change (inject_Z 1) with 1 in Hhi.
  set (f := inject_Z (Qfloor (y * s + (1 # 2)))) in *.
  assert (Hne : ~ s == 0) by (intros H; rewrite H in Hs; discriminate).
  split.
  - apply Qle_shift_div_l; [exact Hs|].
    assert (E : (y - (1 # 2) / s) * s == y * s - (1 # 2)) by (field; exact Hne).
    rewrite E. lra.
  - apply Qle_shift_div_r; [exact Hs|].
    assert (E : (y + (1 # 2) / s) * s == y * s + (1 # 2)) by (field; exact Hne).
    rewrite E. lra.
Qed.

(** [toFixed(d)] moves a number by at most half a unit of the last decimal
    kept, for every number of decimals and either sign, and it commutes with
    negation (ties go away from zero on both sides). *)
Theorem toFixed_rounds_to_nearest :
  forall (d : nat) (x : Q),
    Qabs (toFixed d x - x) <= (1 # 2) / inject_Z (10 ^ Z.of_nat d)
    /\ toFixed d (- x) == - toFixed d x.
Proof.
  intros d x. pose proof (pow10_pos d) as Hs.
  set (s := inject_Z (10 ^ Z.of_nat d)) in *.
  split.
  - unfold toFixed. fold s. destruct (Qle_bool 0 x).
    + pose proof (round_close s x Hs) as [Hlo Hhi].
      apply Qabs_Qle_condition. split; lra.
    + pose proof (round_close s (- x) Hs) as [Hlo Hhi].
      apply Qabs_Qle_condition. split; lra.
  - unfold toFixed. fold s.
    destruct (Qle_bool 0 x) eqn:Ex; destruct (Qle_bool 0 (- x)) eqn:En.
    + apply Qle_bool_iff in Ex, En.
      assert (E0 : x == 0) by lra.
      assert (E1 : - x * s + (1 # 2) == 1 # 2) by (rewrite E0; ring).
      assert (E2 : x * s + (1 # 2) == 1 # 2) by (rewrite E0; ring).
      rewrite E1, E2. change (Qfloor (1 # 2)) with 0%Z.
      unfold Qdiv. change (inject_Z 0) with 0. ring.
    + assert (E : - - x * s + (1 # 2) == x * s + (1 # 2)) by ring.
      rewrite E. reflexivity.
    + ring.
    + exfalso.
      assert (H1 : ~ 0 <= x) by (intros H; apply Qle_bool_iff in H; congruence).
      assert (H2 : ~ 0 <= - x) by (intros H; apply Qle_bool_iff in H; congruence).
      apply H2. apply Qnot_le_lt in H1. lra.
Qed.

(** The percentage of an outcome. *)
Definition percentage_of (o : Outcome) (prob : Prob) : Q :=
  match o with
  | HOME => prob_home prob
  | DRAW => prob_draw prob
  | AWAY => prob_away prob
  end.

(** The pick is always an outcome whose percentage is a maximum of the
    three: no outcome has a strictly larger percentage than the pick. *)
Theorem pick_outcome_is_maximal :
  forall prob : Prob,
    let v := percentage_of (pick_outcome prob) prob in
    prob_home prob <= v /\ prob_draw prob <= v /\ prob_away prob <= v.
Proof.
  intros prob. cbv zeta.
  destruct (pick_outcome_cases prob) as (Haway & Hhome & Hdraw).
  destruct (pick_outcome prob); cbn [percentage_of].
  - destruct (proj1 Hhome eq_refl). repeat split; lra.
  - destruct (proj1 Hdraw eq_refl). repeat split; lra.
  - destruct (proj1 Haway eq_refl). repeat split; lra.
Qed.

Close Scope Q_scope.

Open Scope Q_scope.

Lemma imp_nonneg : forall arr, 0 <= imp arr.
Proof.
  intros arr. rewrite imp_count.
  apply Qmult_le_0_compat; [|discriminate].
  change 0 with (inject_Z 0). rewrite <- Zle_Qle. lia.
Qed.

Lemma injury_impacts_nonneg :
  forall (up : Upstream) (f : Fixture) (homeId awayId : option Z) (w w' : World)
         (aisHome aisAway : Q),
    injury_impacts up f homeId awayId w = (Ret (aisHome, aisAway), w') ->
    0 <= aisHome /\ 0 <= aisAway.
Proof.
  intros up f homeId awayId w w' aisHome aisAway.
  unfold injury_impacts, try_catch, bind, or_throw, await_get, ret, throw.
  destruct (fixture f) as [info|]; cbn.
  - destruct (injuries_reply up (String_of_id (info_id info))); cbn;
      intros H; injection H as <- <- _;
      split; first [apply imp_nonneg | apply Qle_refl].
  - intros H; injection H as <- <- _. split; apply Qle_refl.
Qed.

(** What a prediction answered by the handler is made of. *)
Lemma predict_handler_response :
  forall (R : Runtime) (up : Upstream) (fixtureId : string) (tH tA tsH tsA : Z)
         (w w' : World) (p : Prediction),
    predict_handler up fixtureId tH tA tsH tsA w = (Json p, w') ->
    exists x y aisHome aisAway,
      pr_prob p = make_prob (Math_max (1 # 10) x) (Math_max (1 # 10) y) aisHome aisAway
      /\ 0 <= aisHome /\ 0 <= aisAway.
Proof.
  intros R up fixtureId tH tA tsH tsA w w' p.
  unfold predict_handler, respond.
  step; [|discriminate].
  destruct (match m with Val l => head l | _ => None end) as [f|];
    [|cbn; discriminate].
  step; [|discriminate]. step; [|discriminate].
  step; [|discriminate]. step; [|discriminate].
  destruct (baseline_lambdas _ _) as [lambdaHome lambdaAway].
  lazymatch goal with
  | |- context [bind (injury_impacts up f ?h ?a) ?k ?w0] =>
      destruct (injury_impacts up f h a w0) as [[[aisHome aisAway]|] w5] eqn:Einj;
        [ rewrite (bind_Ret _ _ _ k w0 _ _ Einj)
        | rewrite (bind_Throw _ _ _ k w0 _ Einj) ]; cbv beta; [|discriminate]
  end.
  step; [|discriminate].
  unfold ret. intros Heq. injection Heq as <- _.
  apply injury_impacts_nonneg in Einj.
  cbn [pr_prob]. eauto 8.
Qed.

Lemma toFixed_2_floor : forall v, 1 # 10 <= v -> 1 # 10 <= toFixed 2 v.
Proof.
  intros v Hv. unfold toFixed.
  rewrite (proj2 (Qle_bool_iff 0 v)) by lra.
  change (inject_Z (10 ^ Z.of_nat 2)) with (inject_Z 100).
  assert (Hfloor : (10 <= Qfloor (v * inject_Z 100 + (1 # 2)))%Z).
  { change 10%Z with (Qfloor (inject_Z 10)) at 1. apply Qfloor_resp_le.
    change (inject_Z 10) with (10 # 1). change (inject_Z 100) with (100 # 1). lra. }
  apply Qle_shift_div_l; [reflexivity|].
  rewrite Zle_Qle in Hfloor.
  change ((1 # 10) * inject_Z 100) with ((1 # 10) * (100 # 1)).
  change (inject_Z 10) with (10 # 1) in Hfloor. lra.
Qed.

(** The lambda floor: every prediction answered reports expected goals of at
    least 0.1 on both sides, whatever the statistics and however many
    injuries there are. *)
Theorem predict_handler_lambda_floor :
  forall (R : Runtime) (up : Upstream) (fixtureId : string) (tH tA tsH tsA : Z)
         (w w' : World) (p : Prediction),
    predict_handler up fixtureId tH tA tsH tsA w = (Json p, w') ->
    1 # 10 <= prob_lambdaHome (pr_prob p) /\ 1 # 10 <= prob_lambdaAway (pr_prob p).
Proof.
  intros R up fixtureId tH tA tsH tsA w w' p Hrun.
  destruct (predict_handler_response R up fixtureId tH tA tsH tsA w w' p Hrun)
    as (x & y & aisHome & aisAway & -> & _ & _).
  unfold make_prob. cbn [prob_lambdaHome prob_lambdaAway].
  split; apply toFixed_2_floor.
  - destruct (Math_max_spec (1 # 10) x) as [[H ->]|[H ->]]; lra.
  - destruct (Math_max_spec (1 # 10) y) as [[H ->]|[H ->]]; lra.
Qed.

Lemma predict_handler_lambda_floor_witness :
  exists p w',
    predict_handler (R := Reference.runtime) crowded_infirmary "1" 0 0 0 0 fresh_world
    = (Json p, w')
    /\ 1 # 10 <= prob_lambdaHome (pr_prob p) /\ 1 # 10 <= prob_lambdaAway (pr_prob p).
Proof.
  destruct (predict_handler_answers Reference.runtime crowded_infirmary "1" 0 0 0 0
              fresh_world _ _ _ _ _ eq_refl eq_refl eq_refl eq_refl eq_refl)
    as (p & w' & Hrun).
  exists p, w'. split; [exact Hrun|].
  exact (predict_handler_lambda_floor Reference.runtime crowded_infirmary "1"
           0 0 0 0 fresh_world w' p Hrun).
Defined.

Lemma toFixed_1_percent : forall v, 0 <= v <= 100 -> 0 <= toFixed 1 v <= 100.
Proof.
  intros v [Hlo Hhi]. unfold toFixed.
  rewrite (proj2 (Qle_bool_iff 0 v) Hlo).
  change (inject_Z (10 ^ Z.of_nat 1)) with (10 # 1).
  assert (H0 : (0 <= Qfloor (v * (10 # 1) + (1 # 2)))%Z).
  { change 0%Z with (Qfloor (inject_Z 0)) at 1. apply Qfloor_resp_le.
    change (inject_Z 0) with (0 # 1). lra. }
  assert (H1 : (Qfloor (v * (10 # 1) + (1 # 2)) <= 1000)%Z).
  { change 1000%Z with (Qfloor (2001 # 2)). apply Qfloor_resp_le. lra. }
  rewrite Zle_Qle in H0, H1.
  change (inject_Z 0) with (0 # 1) in H0. change (inject_Z 1000) with (1000 # 1) in H1.
  split.
  - apply Qle_shift_div_l; [reflexivity|]. lra.
  - apply Qle_shift_div_r; [reflexivity|]. lra.
Qed.

(** Each of the three percentages lies between 0 and 100, for non-negative
    lambdas and a [Math.exp] that returns positive numbers. *)
Theorem percentages_in_range :
  forall (R : Runtime),
    (forall x, 0 < Math_exp x) ->
    forall lambdaHome lambdaAway aisHome aisAway : Q,
      0 <= lambdaHome -> 0 <= lambdaAway ->
      let prob := make_prob lambdaHome lambdaAway aisHome aisAway in
      0 <= prob_home prob <= 100
      /\ 0 <= prob_draw prob <= 100
      /\ 0 <= prob_away prob <= 100.
Proof.
  intros R Hexp lH lA aH aA HlH HlA prob.
  destruct (scorelines_positive lH lA (Hexp _) (Hexp _) HlH HlA)
    as [(H1 & H2 & H3) Htot].
  subst prob. unfold make_prob. cbn [prob_home prob_draw prob_away].
  unfold total in Htot. revert H1 H2 H3 Htot.
  generalize (scorelines lH lA). intros b H1 H2 H3 Htot.
  assert (Hs : truthy (pH b + pD b + pA b) = true).
  { unfold truthy, truthy_Q.
    rewrite (proj2 (Qeq_bool_false_iff (pH b + pD b + pA b) 0)); [reflexivity|].
    intros H0. rewrite H0 in Htot. discriminate. }
  rewrite Hs. clear Hs.
  set (s := pH b + pD b + pA b) in *.
  assert (Hle : pH b <= s /\ pD b <= s /\ pA b <= s) by (subst s; repeat split; lra).
  clearbody s. destruct Hle as (Hle1 & Hle2 & Hle3).
  assert (Hshare : forall v, 0 <= v -> v <= s -> 0 <= v / s * 100 <= 100).
  { intros v Hv Hvs.
    assert (Hq : 0 <= v / s <= 1).
    { split.
      - apply Qle_shift_div_l; [exact Htot|]. lra.
      - apply Qle_shift_div_r; [exact Htot|]. lra. }
    split; lra. }
  repeat split; apply toFixed_1_percent, Hshare; lra.
Qed.

Lemma percentages_in_range_witness :
  let prob := make_prob (R := Reference.runtime) 0 (3 # 2) 0 0 in
  0 <= prob_home prob <= 100.
Proof.
  exact (proj1 (percentages_in_range Reference.runtime Reference_Math_exp_pos
                  0 (3 # 2) 0 0 ltac:(discriminate) ltac:(discriminate))).
Defined.

Close Scope Q_scope.

Open Scope Q_scope.

(** *** The guard [pH + pD + pA || 1] *)

(** When [Math.exp(-lambdaHome)] is zero, as it is in doubles for a lambda
    above 745, every bucket is zero, the guard replaces the zero sum by 1,
    all three percentages are 0 and the pick is AWAY.  The lambdas are kept
    between 0 and 10^30, where no power [l^k], [k <= 10], exceeds the range
    of a double. *)
Theorem make_prob_underflow :
  forall (R : Runtime) (lambdaHome lambdaAway aisHome aisAway : Q),
    0 <= lambdaHome <= inject_Z (10 ^ 30) ->
    0 <= lambdaAway <= inject_Z (10 ^ 30) ->
    Math_exp (- lambdaHome) == 0 ->
    let prob := make_prob lambdaHome lambdaAway aisHome aisAway in
    prob_home prob == 0 /\ prob_draw prob == 0 /\ prob_away prob == 0
    /\ pick_outcome prob = AWAY.
Proof.
  intros R lH lA aH aA _ _ Hexp prob.
  pose proof (make_prob_zero R lH lA aH aA Hexp) as Hprobs.
  cbv zeta in Hprobs. fold prob in Hprobs.
  clearbody prob. destruct Hprobs as (Hh & Hd & Ha).
  split; [exact Hh|]. split; [exact Hd|]. split; [exact Ha|].
  apply (proj1 (pick_outcome_cases prob)).
  revert Hh Hd Ha.
  generalize (prob_home prob) (prob_draw prob) (prob_away prob).
  intros h d a Hh Hd Ha. lra.
Qed.

Lemma make_prob_underflow_witness :
  pick_outcome (make_prob (R := underflowing_runtime) (800 # 1) (800 # 1) 0 0) = AWAY.
Proof.
  assert (Hl : 0 <= 800 # 1 <= inject_Z (10 ^ 30))
    by (split; vm_compute; discriminate).
  assert (Hexp : Math_exp (Runtime := underflowing_runtime) (- (800 # 1)) == 0)
    by reflexivity.
  exact (proj2 (proj2 (proj2
           (make_prob_underflow underflowing_runtime (800 # 1) (800 # 1) 0 0
              Hl Hl Hexp)))).
Defined.

Close Scope Q_scope.

(** ** Injuries by team *)

(** The team id of an injury record, and whether the record counts for a
    side: the id is a non-zero number and it is the side's id. *)
Definition team_of (it : Injury) : option Z := injury_team it ?. team_id.

Definition counts_for (side : option Z) (it : Injury) : bool :=
  match team_of it, side with
  | Some a, Some b => negb (a =? 0) && (a =? b)
  | _, _ => false
  end.

Definition filed_under (k : string) (it : Injury) : bool :=
  truthy (team_of it) && String.eqb (String_of_id (team_of it)) k.

Lemma group_step_lookup :
  forall by_ it k,
    group_step by_ it !! k
    = if filed_under k it then Some (default [] (by_ !! k) ++ [it]) else by_ !! k.
Proof.
  intros by_ it k. unfold group_step, filed_under. fold (team_of it).
  destruct (truthy (team_of it)); cbn [negb andb]; [|reflexivity].
  destruct (String.eqb_spec (String_of_id (team_of it)) k) as [->|Hne].
  - destruct (by_ !! k) as [arr|] eqn:Hk.
    + rewrite Hk. rewrite lookup_insert_eq. reflexivity.
    + rewrite lookup_insert_eq. rewrite lookup_insert_eq. reflexivity.
  - destruct (by_ !! String_of_id (team_of it)) as [arr|] eqn:Hk.
    + rewrite Hk. rewrite lookup_insert_ne by exact Hne. reflexivity.
    + rewrite lookup_insert_eq. rewrite !lookup_insert_ne by exact Hne. reflexivity.
Qed.

Lemma group_fold_lookup :
  forall resp by_ k,
    fold_left group_step resp by_ !! k
    = match by_ !! k, List.filter (filed_under k) resp with
      | None, [] => None
      | o, l => Some (default [] o ++ l)
      end.
Proof.
  induction resp as [|it resp IH]; intros by_ k.
  - cbn. destruct (by_ !! k); [rewrite app_nil_r|]; reflexivity.
  - rewrite fold_left_cons, IH, group_step_lookup. cbn [List.filter].
    destruct (filed_under k it); [|reflexivity].
    destruct (by_ !! k) as [arr|]; cbn [default]; cbv [id].
    + rewrite <- app_assoc. reflexivity.
    + reflexivity.
Qed.

Lemma filed_under_counts_for :
  forall side it, filed_under (String_of_id side) it = counts_for side it.
Proof.
  intros side it. unfold filed_under, counts_for.
  destruct (team_of it) as [a|]; [|reflexivity].
  change (truthy (Some a)) with (negb (a =? 0)).
  destruct (a =? 0); cbn [negb andb]; [destruct side; reflexivity|].
  destruct (String.eqb_spec (String_of_id (Some a)) (String_of_id side)) as [E|E].
  - apply String_of_id_inj in E. subst side. symmetry. apply Z.eqb_refl.
  - destruct side as [b|]; [|reflexivity].
    destruct (Z.eqb_spec a b) as [->|_]; [contradiction|reflexivity].
Qed.

(** The array [by[teamId]] holds exactly the injury records of that team, in
    the order received, so the impact of a side is 0.08 times the number of
    records whose team id is the side's (a missing or zero id counts for
    nobody). *)
Theorem group_by_team_counts :
  forall (resp : list Injury) (side : option Z),
    record_count (group_by_team resp !! String_of_id side)
    = length (List.filter (counts_for side) resp)
    /\ (forall arr, group_by_team resp !! String_of_id side = Some arr ->
                    arr = List.filter (counts_for side) resp)
    /\ (imp (group_by_team resp !! String_of_id side)
        == inject_Z (Z.of_nat (length (List.filter (counts_for side) resp)))
           * (8 # 100))%Q.
Proof.
  intros resp side.
  assert (Hlookup : group_by_team resp !! String_of_id side
                    = match List.filter (counts_for side) resp with
                      | [] => None
                      | l => Some l
                      end).
  { unfold group_by_team. rewrite group_fold_lookup, lookup_empty.
    rewrite (filter_ext _ _ (filed_under_counts_for side)).
    destruct (List.filter (counts_for side) resp); reflexivity. }
  assert (Hcount : record_count (group_by_team resp !! String_of_id side)
                   = length (List.filter (counts_for side) resp)).
  { rewrite Hlookup. destruct (List.filter (counts_for side) resp); reflexivity. }
  split; [exact Hcount|]. split.
  - intros arr Harr. rewrite Hlookup in Harr.
    destruct (List.filter (counts_for side) resp); [discriminate|].
    injection Harr as <-. reflexivity.
  - rewrite imp_count, Hcount. reflexivity.
Qed.

(** ** Which caches a handler touches *)

(** A computation keeps a part of the caches when it leaves that part as it
    found it, whether it returns or throws. *)
Definition keeps {A T : Type} (part : Caches -> T) (c : M A) : Prop :=
  forall w, part (caches (snd (c w))) = part (caches w).

Lemma keeps_ret : forall A T (part : Caches -> T) (a : A), keeps part (ret a).
Proof. intros A T part a w. reflexivity. Qed.

Lemma keeps_throw : forall A T (part : Caches -> T), keeps part (@throw A).
Proof. intros A T part w. reflexivity. Qed.

Lemma keeps_bind :
  forall A B T (part : Caches -> T) (c : M A) (k : A -> M B),
    keeps part c -> (forall a, keeps part (k a)) -> keeps part (bind c k).
Proof.
  intros A B T part c k Hc Hk w. unfold bind. specialize (Hc w).
  destruct (c w) as [[a|] w1]; cbn [snd] in *; [|exact Hc].
  rewrite (Hk a w1). exact Hc.
Qed.

Lemma keeps_try_catch :
  forall A T (part : Caches -> T) (body handler : M A),
    keeps part body -> keeps part handler -> keeps part (try_catch body handler).
Proof.
  intros A T part body handler Hb Hh w. unfold try_catch. specialize (Hb w).
  destruct (body w) as [[a|] w1]; cbn [snd] in *; [exact Hb|].
  rewrite (Hh w1). exact Hb.
Qed.

Lemma keeps_await_get :
  forall A T (part : Caches -> T) (c : call) (r : reply A),
    keeps part (await_get c r).
Proof. intros A T part c r w. unfold await_get. destruct r; reflexivity. Qed.

Lemma keeps_or_throw :
  forall A T (part : Caches -> T) (o : option A), keeps part (or_throw o).
Proof. intros A T part [a|] w; reflexivity. Qed.

Lemma keeps_getCacheM :
  forall V T (part : Caches -> T) (x : member V) (k : string) (ttl now : Z),
    (forall c m, part (update x c m) = part c) ->
    keeps part (getCacheM x k ttl now).
Proof.
  intros V T part x k ttl now Hx w. unfold getCacheM.
  destruct (getCache (view x (caches w)) k ttl now). cbn. apply Hx.
Qed.

Lemma keeps_setCacheM :
  forall V T (part : Caches -> T) (x : member V) (k : string) (d : maybe V)
         (now : Z),
    (forall c m, part (update x c m) = part c) ->
    keeps part (setCacheM x k d now).
Proof. intros V T part x k d now Hx w. cbn. apply Hx. Qed.

Ltac keeps_step :=
  match goal with
  | |- keeps _ (bind _ _) => apply keeps_bind; [|intros ?]
  | |- keeps _ (try_catch _ _) => apply keeps_try_catch
  | |- keeps _ (ret _) => apply keeps_ret
  | |- keeps _ throw => apply keeps_throw
  | |- keeps _ (await_get _ _) => apply keeps_await_get
  | |- keeps _ (or_throw _) => apply keeps_or_throw
  | |- keeps _ (getCacheM _ _ _ _) => apply keeps_getCacheM; intros; reflexivity
  | |- keeps _ (setCacheM _ _ _ _) => apply keeps_setCacheM; intros; reflexivity
  | |- keeps _ (if ?b then _ else _) => destruct b
  | |- keeps _ (match ?x with _ => _ end) => destruct x
  end.

Lemma keeps_fetchFixturesForDay :
  forall (R : Runtime) T (part : Caches -> T) up day,
    keeps part (fetchFixturesForDay up day).
Proof.
  intros R T part up day. unfold fetchFixturesForDay, isoDay.
  repeat keeps_step.
Qed.

Lemma keeps_respond :
  forall B T (part : Caches -> T) (body : M (response B)) (error : string) w,
    keeps part body ->
    part (caches (snd (respond body error w))) = part (caches w).
Proof.
  intros B T part body error w Hb. unfold respond. specialize (Hb w).
  destruct (body w) as [[r|] w1]; exact Hb.
Qed.

(** A cached-or-fetch handler keeps what both its lookup and its body keep. *)
Lemma keeps_cached_or :
  forall B T (part : Caches -> T) (lookup : M (maybe B)) (body : M (response B))
         (error : string) (w : World),
    keeps part lookup -> keeps part body ->
    part (caches (snd (match lookup w with
                       | (Ret (Val hit), w') => (Json hit, w')
                       | (_, w') => respond body error w'
                       end)))
    = part (caches w).
Proof.
  intros B T part lookup body error w Hl Hb. specialize (Hl w).
  destruct (lookup w) as [[[| |hit]|] w1]; cbn [snd] in *;
    try exact Hl; rewrite (keeps_respond _ _ part body error w1 Hb); exact Hl.
Qed.

(** Each handler writes only to its own cache: the leagues handler to
    [cache.leagues], the day handler to [cache.day], the details handler to
    [cache.injuries] and [cache.lineups], the predict handler to
    [cache.stats].  In particular a prediction never caches the injuries it
    fetched. *)
Theorem handlers_cache_footprint :
  forall (R : Runtime) (up : Upstream) (w : World),
    (forall day t_get t_set,
        let c' := caches (snd (leagues_handler up day t_get t_set w)) in
        cache_day c' = cache_day (caches w)
        /\ cache_injuries c' = cache_injuries (caches w)
        /\ cache_lineups c' = cache_lineups (caches w)
        /\ cache_stats c' = cache_stats (caches w))
    /\ (forall day league t_get t_set,
           let c' := caches (snd (day_handler up day league t_get t_set w)) in
           cache_leagues c' = cache_leagues (caches w)
           /\ cache_injuries c' = cache_injuries (caches w)
           /\ cache_lineups c' = cache_lineups (caches w)
           /\ cache_stats c' = cache_stats (caches w))
    /\ (forall id t1 t2 t3 t4,
           let c' := caches (snd (details_handler up id t1 t2 t3 t4 w)) in
           cache_day c' = cache_day (caches w)
           /\ cache_leagues c' = cache_leagues (caches w)
           /\ cache_stats c' = cache_stats (caches w))
    /\ (forall fixtureId tH tA tsH tsA,
           let c' := caches (snd (predict_handler up fixtureId tH tA tsH tsA w)) in
           cache_day c' = cache_day (caches w)
           /\ cache_leagues c' = cache_leagues (caches w)
           /\ cache_injuries c' = cache_injuries (caches w)
           /\ cache_lineups c' = cache_lineups (caches w)).
Proof.
  intros R up w. split; [|split; [|split]].
  - intros day t_get t_set. cbv zeta. unfold leagues_handler.
    repeat split; apply keeps_cached_or;
      repeat first [keeps_step | apply keeps_fetchFixturesForDay].
  - intros day league t_get t_set. cbv zeta. unfold day_handler.
    repeat split; apply keeps_cached_or;
      repeat first [keeps_step | apply keeps_fetchFixturesForDay].
  - intros id t1 t2 t3 t4. cbv zeta. unfold details_handler.
    repeat split; apply keeps_respond; repeat keeps_step.
  - intros fixtureId tH tA tsH tsA. cbv zeta.
    unfold predict_handler, ensure_stats, injury_impacts.
    repeat split; apply keeps_respond; repeat keeps_step.
Qed.

(** ** Statistics are fetched once *)

(** The injuries block logs exactly one call when the fixture carries its
    fixture object, and leaves the caches alone. *)
Lemma injury_impacts_world :
  forall (up : Upstream) (f : Fixture) (info : Info) (homeId awayId : option Z)
         (w : World),
    fixture f = Some info ->
    snd (injury_impacts up f homeId awayId w)
    = logged w [GetInjuries (String_of_id (info_id info))]
    /\ exists ais, fst (injury_impacts up f homeId awayId w) = Ret ais.
Proof.
  intros up f info homeId awayId w Hinfo.
  unfold injury_impacts, try_catch, bind, or_throw, await_get, ret, logged.
  rewrite Hinfo. cbn.
  destruct (injuries_reply up (String_of_id (info_id info))); cbn; eauto.
Qed.

(** A prediction whose two statistics lookups hit usable entries calls the
    provider for the fixture and for the injuries only, and leaves the
    statistics cache as it is. *)
Lemma predict_handler_statistics_hit :
  forall (R : Runtime) (up : Upstream) (fixtureId : string) (tH tA tsH tsA : Z)
         (w : World) body f info (hH hA : entry TeamStats) sH sA,
    fixtures_reply up (ById fixtureId) = Resolved body ->
    first_record body = Some f ->
    fixture f = Some info ->
    let leagueId := league f ?. league_id in
    let season := league f ?. league_season in
    let keyH := stats_key (teams f ?. home ?. team_id) leagueId season in
    let keyA := stats_key (teams f ?. away ?. team_id) leagueId season in
    cache_stats (caches w) !! keyH = Some hH ->
    tH - ts hH <= 24 * 60 * 60 * 1000 -> data hH = Val sH ->
    cache_stats (caches w) !! keyA = Some hA ->
    tA - ts hA <= 24 * 60 * 60 * 1000 -> data hA = Val sA ->
    let w' := snd (predict_handler up fixtureId tH tA tsH tsA w) in
    calls w' = calls w ++ [GetFixtures (ById fixtureId);
                           GetInjuries (String_of_id (info_id info))]
    /\ cache_stats (caches w') = cache_stats (caches w).
Proof.
  intros R up fixtureId tH tA tsH tsA w body f info hH hA sH sA Hfx Hsome Hinfo
         leagueId season keyH keyA HkH HfH HdH HkA HfA HdA.
  cbv zeta. unfold first_record in Hsome.
  set (w0 := logged w [GetFixtures (ById fixtureId)]).
  assert (E1 := getCacheM_hit _ stats_cache keyH (24 * 60 * 60 * 1000) tH w0 hH HkH HfH).
  match type of E1 with _ = (_, ?v) => set (w1 := v) in * end.
  assert (E2 := getCacheM_hit _ stats_cache keyA (24 * 60 * 60 * 1000) tA w1 hA HkA HfA).
  match type of E2 with _ = (_, ?v) => set (w2 := v) in * end.
  assert (Hw : snd (predict_handler up fixtureId tH tA tsH tsA w)
               = logged w2 [GetInjuries (String_of_id (info_id info))]).
  { unfold predict_handler, respond.
    assert (E0 : await_get (GetFixtures (ById fixtureId))
                   (fixtures_reply up (ById fixtureId)) w
                 = (Ret body, w0))
      by (unfold await_get; rewrite Hfx; reflexivity).
    step_ret E0. rewrite Hsome. fold leagueId season keyH keyA.
    step_ret E1. rewrite HdH. step_ret E2. rewrite HdA.
    unfold ensure_stats. cbn [truthy truthy_maybe truthy_TeamStats negb].
    unfold bind at 1, ret at 1. unfold bind at 1, ret at 1.
    destruct (baseline_lambdas (Val sH) (Val sA)) as [lambdaHome lambdaAway].
    destruct (injury_impacts_world up f info (teams f ?. home ?. team_id)
                (teams f ?. away ?. team_id) w2 Hinfo) as [Hworld [ais Hais]].
    unfold bind at 1.
    destruct (injury_impacts up f _ _ w2) as [r w3]. cbn [fst snd] in Hworld, Hais.
    subst r w3. destruct ais as [aisHome aisAway].
    rewrite Hinfo. reflexivity. }
  rewrite Hw. unfold logged, w2, w1, w0, logged.
  cbn [calls caches cache_stats update stats_cache view].
  rewrite <- app_assoc. split; reflexivity.
Qed.

(** After a prediction that fetched the statistics of both teams, a second
    prediction for the same fixture within 24 hours of the two writes asks the
    provider for the fixture and the injuries only: the statistics come from
    the cache, which stays as the first prediction left it. *)
Theorem predict_handler_reuses_statistics :
  forall (R : Runtime) (up up' : Upstream) (fixtureId : string)
         (tH tA tsH tsA tH' tA' tsH' tsA' : Z) (w : World)
         body f info (sH sA : TeamStats),
    fixtures_reply up (ById fixtureId) = Resolved body ->
    fixtures_reply up' (ById fixtureId) = Resolved body ->
    first_record body = Some f ->
    fixture f = Some info ->
    let leagueId := league f ?. league_id in
    let season := league f ?. league_season in
    let homeId := teams f ?. home ?. team_id in
    let awayId := teams f ?. away ?. team_id in
    statistics_reply up homeId leagueId season = Resolved (Val sH) ->
    statistics_reply up awayId leagueId season = Resolved (Val sA) ->
    cache_stats (caches w) !! stats_key homeId leagueId season = None ->
    cache_stats (caches w) !! stats_key awayId leagueId season = None ->
    tH' - tsH <= 24 * 60 * 60 * 1000 -> tH' - tsA <= 24 * 60 * 60 * 1000 ->
    tA' - tsA <= 24 * 60 * 60 * 1000 ->
    let w1 := snd (predict_handler up fixtureId tH tA tsH tsA w) in
    let w2 := snd (predict_handler up' fixtureId tH' tA' tsH' tsA' w1) in
    calls w2 = calls w1 ++ [GetFixtures (ById fixtureId);
                            GetInjuries (String_of_id (info_id info))]
    /\ cache_stats (caches w2) = cache_stats (caches w1)
    /\ cache_stats (caches w1)
       = setCache (setCache (cache_stats (caches w))
                     (stats_key homeId leagueId season) (Val sH) tsH)
           (stats_key awayId leagueId season) (Val sA) tsA.
Proof.
  intros R up up' fixtureId tH tA tsH tsA tH' tA' tsH' tsA' w body f info sH sA
         Hfx Hfx' Hsome Hinfo leagueId season homeId awayId HsH HsA HmH HmA
         HfHH HfHA HfAA w1.
  assert (Hstats : cache_stats (caches w1)
                   = setCache (setCache (cache_stats (caches w))
                                 (stats_key homeId leagueId season) (Val sH) tsH)
                       (stats_key awayId leagueId season) (Val sA) tsA).
  { subst w1. unfold first_record in Hsome.
    set (w0 := logged w [GetFixtures (ById fixtureId)]).
    assert (E1 := getCacheM_miss _ stats_cache (stats_key homeId leagueId season)
                    (24 * 60 * 60 * 1000) tH w0 HmH).
    match type of E1 with _ = (_, ?v) => set (v1 := v) in * end.
    assert (E2 := getCacheM_miss _ stats_cache (stats_key awayId leagueId season)
                    (24 * 60 * 60 * 1000) tA v1 HmA).
    match type of E2 with _ = (_, ?v) => set (v2 := v) in * end.
    unfold predict_handler, respond.
    assert (E0 : await_get (GetFixtures (ById fixtureId))
                   (fixtures_reply up (ById fixtureId)) w
                 = (Ret body, w0))
      by (unfold await_get; rewrite Hfx; reflexivity).
    step_ret E0. rewrite Hsome. fold leagueId season homeId awayId.
    step_ret E1. step_ret E2.
    unfold ensure_stats. cbn [truthy truthy_maybe negb].
    unfold bind at 1, await_get at 1. rewrite HsH.
    unfold bind at 1, setCacheM at 1. unfold bind at 1, ret at 1.
    unfold bind at 1, await_get at 1. rewrite HsA.
    unfold bind at 1, setCacheM at 1. unfold bind at 1, ret at 1.
    destruct (baseline_lambdas (Val sH) (Val sA)) as [lambdaHome lambdaAway].
    match goal with
    | |- context [bind (injury_impacts up f ?h ?a) _ ?v] =>
        destruct (injury_impacts_world up f info h a v Hinfo) as [Hworld [ais Hais]];
        unfold bind at 1;
        destruct (injury_impacts up f h a v) as [r v3]
    end.
    cbn [fst snd] in Hworld, Hais. subst r v3. destruct ais as [aisHome aisAway].
    rewrite Hinfo. unfold or_throw, bind, ret. cbn [snd].
    unfold logged, v2, v1, w0, logged. cbn. reflexivity. }
  cbv zeta.
  assert (HlookA : cache_stats (caches w1) !! stats_key awayId leagueId season
                   = Some (Entry tsA (Val sA))).
  { rewrite Hstats. unfold setCache. apply lookup_insert_eq. }
  assert (HlookH : exists hH s,
             cache_stats (caches w1) !! stats_key homeId leagueId season = Some hH
             /\ tH' - ts hH <= 24 * 60 * 60 * 1000 /\ data hH = Val s).
  { rewrite Hstats. unfold setCache.
    destruct (decide (stats_key awayId leagueId season
                      = stats_key homeId leagueId season)) as [E|E].
    - rewrite E, lookup_insert_eq. exists (Entry tsA (Val sA)), sA. auto.
    - rewrite lookup_insert_ne by exact E. rewrite lookup_insert_eq.
      exists (Entry tsH (Val sH)), sH. auto. }
  destruct HlookH as (hH & s & HkH & HfH & HdH).
  destruct (predict_handler_statistics_hit R up' fixtureId tH' tA' tsH' tsA' w1
              body f info hH (Entry tsA (Val sA)) s sA Hfx' Hsome Hinfo
              HkH HfH HdH HlookA HfAA eq_refl) as [Hcalls Hsame].
  split; [exact Hcalls|]. split; [exact Hsame|exact Hstats].
Qed.

Lemma predict_handler_reuses_statistics_witness :
  let w1 := snd (predict_handler (R := Reference.runtime) window_upstream "1"
                   0 0 0 0 fresh_world) in
  let w2 := snd (predict_handler (R := Reference.runtime) injuries_down "1"
                   1000 1000 1000 1000 w1) in
  calls w2 = calls w1 ++ [GetFixtures (ById "1"); GetInjuries (String_of_id (Some 1%Z))].
Proof.
  exact (proj1 (predict_handler_reuses_statistics Reference.runtime
                  window_upstream injuries_down "1" 0 0 0 0 1000 1000 1000 1000
                  fresh_world
                  (Val [sample_fixture 1 39 2023 "Premier League" "England"])
                  (sample_fixture 1 39 2023 "Premier League" "England")
                  {| info_id := Some 1%Z;
                     info_date := Some "2024-05-01T18:00:00+00:00" |}
                  (sample_stats (3 # 2) (3 # 2) (3 # 2) (3 # 2))
                  (sample_stats (3 # 2) (3 # 2) (3 # 2) (3 # 2))
                  eq_refl eq_refl eq_refl eq_refl eq_refl eq_refl eq_refl eq_refl
                  ltac:(vm_compute; discriminate) ltac:(vm_compute; discriminate)
                  ltac:(vm_compute; discriminate))).
Defined.

(** The fetch of [ensure_stats], spelled out. *)
Lemma ensure_stats_fetch :
  forall (up : Upstream) (H : maybe TeamStats) (key : string)
         (team league season : option Z) (body : maybe TeamStats) (t : Z)
         (w : World),
    truthy H = false ->
    statistics_reply up team league season = Resolved body ->
    ensure_stats up H key team league season t w
    = (Ret body,
       {| caches := update stats_cache (caches w)
                      (setCache (cache_stats (caches w)) key body t);
          calls := calls w ++ [GetStatistics team league season] |}).
Proof.
  intros up H key team league season body t w Hfalsy Hreply.
  unfold ensure_stats. rewrite Hfalsy. cbn [negb].
  unfold bind, await_get, setCacheM, ret. rewrite Hreply. reflexivity.
Qed.

(** A statistics answer without a usable body ([response] missing or
    [null]) is written to the cache all the same, but it can never be served:
    the next lookup returns that falsy value, so the provider is called again
    however fresh the entry is. *)
Theorem statistics_without_body_refetched :
  forall (up : Upstream) (key : string) (team league season : option Z)
         (body : maybe TeamStats) (t t' ttl now : Z) (w : World),
    statistics_reply up team league season = Resolved body ->
    truthy body = false ->
    let w1 := snd (ensure_stats up Null key team league season t w) in
    let looked := getCacheM stats_cache key ttl now w1 in
    cache_stats (caches w1) !! key = Some (Entry t body)
    /\ (exists H, fst looked = Ret H /\ truthy H = false
                  /\ calls (snd (ensure_stats up H key team league season t'
                                   (snd looked)))
                     = calls w1 ++ [GetStatistics team league season]).
Proof.
  intros up key team league season body t t' ttl now w Hreply Hfalsy. cbv zeta.
  rewrite (ensure_stats_fetch up Null key team league season body t w eq_refl Hreply).
  cbn [snd].
  set (w1 := {| caches := update stats_cache (caches w)
                            (setCache (cache_stats (caches w)) key body t);
                calls := calls w ++ [GetStatistics team league season] |}).
  split; [cbn; apply lookup_insert_eq|].
  assert (Hlook : exists H w2,
             getCacheM stats_cache key ttl now w1 = (Ret H, w2)
             /\ truthy H = false /\ calls w2 = calls w1).
  { unfold getCacheM, getCache.
    cbn [w1 caches calls view update stats_cache cache_stats]. unfold setCache.
    rewrite lookup_insert_eq. cbn [ts data].
    destruct (now - t >? ttl); eexists _, _; split; try reflexivity;
      split; try reflexivity; exact Hfalsy. }
  destruct Hlook as (H & w2 & E & Hf & Hc). rewrite E. cbn [fst snd].
  exists H. split; [reflexivity|]. split; [exact Hf|].
  rewrite (ensure_stats_fetch up H key team league season body t' w2 Hf Hreply).
  cbn [snd calls]. rewrite Hc. reflexivity.
Qed.

Definition statistics_empty : Upstream :=
  {| fixtures_reply := fixtures_reply window_upstream;
     statistics_reply _ _ _ := Resolved Undefined;
     injuries_reply := injuries_reply window_upstream;
     lineups_reply := lineups_reply window_upstream |}.

Lemma statistics_without_body_refetched_witness :
  cache_stats (caches (snd (ensure_stats statistics_empty Null "10_39_2023"
                              (Some 10) (Some 39) (Some 2023) 0 fresh_world)))
    !! "10_39_2023"
  = Some (Entry 0 Undefined).
Proof.
  exact (proj1 (statistics_without_body_refetched statistics_empty "10_39_2023"
                  (Some 10) (Some 39) (Some 2023) Undefined 0 1 86400000 1
                  fresh_world eq_refl eq_refl)).
Defined.

(** ** The day cache keys *)

Lemma append_same_prefix :
  forall p a b : string, p +:+ a = p +:+ b -> a = b.
Proof.
  induction p as [|c p IH]; intros a b H; cbn in H; [exact H|].
  injection H as H. apply IH, H.
Qed.

Lemma getCache_other_key :
  forall (T : Type) (m : gmap string (entry T)) (k k' : string) (ttl now : Z),
    k' <> k -> snd (getCache m k ttl now) !! k' = m !! k'.
Proof.
  intros T m k k' ttl now Hne. unfold getCache.
  destruct (m !! k) as [h|]; [|reflexivity].
  destruct (now - ts h >? ttl); [|reflexivity].
  cbn [snd]. apply lookup_delete_ne. congruence.
Qed.

(** A request with a league filter uses a key of its own: it never reads,
    replaces or evicts the entry of the unfiltered view of that day. *)
Theorem day_handler_filter_has_own_key :
  forall (R : Runtime) (up : Upstream) (day q : string) (n : Q)
         (t_get t_set : Z) (w : World),
    q <> "" ->
    Number_of_string q = Some n ->
    ~ (n == 0)%Q ->
    day_key day (parse_leagueId (Some q)) <> day_key day (parse_leagueId None)
    /\ cache_day (caches (snd (day_handler up day (Some q) t_get t_set w)))
         !! day_key day (parse_leagueId None)
       = cache_day (caches w) !! day_key day (parse_leagueId None).
Proof.
  intros R up day q n t_get t_set w Hq Hn Hnz.
  assert (Hparse : parse_leagueId (Some q) = Val (Some n)).
  { unfold parse_leagueId. destruct q as [|c q']; [contradiction|].
    cbn. rewrite Hn. reflexivity. }
  assert (Htruthy : truthy (Val (Some n) : maybe (option Q)) = true).
  { change (negb (Qeq_bool n 0) = true).
    apply Qeq_bool_false_iff in Hnz. now rewrite Hnz. }
  assert (Hkey : day_key day (Val (Some n)) <> day_key day (parse_leagueId None)).
  { unfold day_key. rewrite Htruthy.
    change (parse_leagueId None) with (@Null (option Q)). cbn [truthy truthy_maybe].
    intros H. apply append_same_prefix in H. apply append_same_prefix in H.
    discriminate H. }
  rewrite Hparse. split; [exact Hkey|].
  unfold day_handler. rewrite Hparse.
  set (key := day_key day (Val (Some n))) in *.
  set (k0 := day_key day (parse_leagueId None)) in *.
  unfold getCacheM.
  cbn [view update day_cache].
  pose proof (getCache_other_key _ (cache_day (caches w)) key k0
                (10 * 60 * 1000) t_get (not_eq_sym Hkey)) as Hother.
  destruct (getCache (cache_day (caches w)) key (10 * 60 * 1000) t_get)
    as [[| |hit] m]; cbn [snd] in Hother; cbn [snd caches cache_day];
    try exact Hother;
    unfold respond, bind, setCacheM, ret;
    match goal with
    | |- context [fetchFixturesForDay up day ?w0] =>
        destruct (fetchFixturesForDay_world R up day w0) as (fx & l & -> & _)
    end;
    cbn [snd caches cache_day logged view update day_cache];
    unfold setCache; rewrite lookup_insert_ne by exact Hkey; exact Hother.
Qed.

Lemma day_handler_filter_has_own_key_witness :
  day_key (R := Reference.runtime) "2024-05-01" (parse_leagueId (R := Reference.runtime) (Some "39"))
  <> day_key (R := Reference.runtime) "2024-05-01" (parse_leagueId (R := Reference.runtime) None).
Proof.
  exact (proj1 (day_handler_filter_has_own_key Reference.runtime window_upstream
                  "2024-05-01" "39" (inject_Z 39) 0 0 fresh_world
                  ltac:(discriminate) eq_refl ltac:(discriminate))).
Defined.
